(** * Indian movie monitor: classification, de-duplication, notification

    A shallow embedding of the decision logic of [app.py]: the two text
    classifiers ([extract_movie_info], [enhanced_extract_movie_info]), the
    persistence gate [DatabaseManager.save_movie_update] over the
    [movie_updates] table, the per-item bodies of the twitter and instagram
    pollers, and the [/api/updates] read accessor.

    Conventions.
    - A Python [str] is a [string]; a character is a code point below 256,
      on which [str.lower], [\w] and [\s] are tabulated exactly.
    - Integers are [Z]; timestamps are [Z] (microseconds on one time line).
      An integer bound to an SQL statement has to fit 64 bits; binding
      one that does not raises [OverflowError].
    - A Python dict literal iterated with [.items()] is an association list
      in insertion order.
    - The database is explicit state; a method that may raise runs in the
      small exception monad [Py]. *)

From Stdlib Require Import ZArith List String Ascii Bool Lia.
From Stdlib Require Import Permutation Sorted DecimalString DecimalPos DecimalZ.
Import ListNotations.

Open Scope string_scope.
Open Scope list_scope.

(* ------------------------------------------------------------------ *)
(** ** Python strings *)

Module PyStr.

(** [c.lower()] for one character below code point 256: the ASCII capitals
    and the Latin-1 capitals (all of 192..222 but the sign at 215) move up
    by 32; everything else is its own lowercase. *)
Definition lower_char (c : ascii) : ascii :=
  let n := N_of_ascii c in
  if ((65 <=? n) && (n <=? 90))%N then ascii_of_N (n + 32)
  else if ((192 <=? n) && (n <=? 222) && negb (n =? 215))%N
       then ascii_of_N (n + 32)
  else c.

(** [s.lower()] *)
Fixpoint lower (s : string) : string :=
  match s with
  | EmptyString => EmptyString
  | String c s' => String (lower_char c) (lower s')
  end.

(** [s.startswith(p)] *)
Fixpoint startswith (p s : string) : bool :=
  match p, s with
  | EmptyString, _ => true
  | String _ _, EmptyString => false
  | String a p', String b s' => Ascii.eqb a b && startswith p' s'
  end.

(** [word in text]: substring containment. *)
Fixpoint contains (word text : string) : bool :=
  startswith word text ||
  match text with
  | EmptyString => false
  | String _ text' => contains word text'
  end.

(** [any(word in text for word in words)] *)
Definition any_in (words : list string) (text : string) : bool :=
  existsb (fun word => contains word text) words.

(** Truth value of a string: only the empty string is falsy. *)
Definition truthy (s : string) : bool :=
  match s with EmptyString => false | String _ _ => true end.

(** [a or b] on strings. *)
Definition or_else (a b : string) : string :=
  if truthy a then a else b.

(** [s[:n]] for [n >= 0]. *)
Fixpoint take (n : nat) (s : string) : string :=
  match n, s with
  | S n', String c s' => String c (take n' s')
  | _, _ => EmptyString
  end.

End PyStr.

Import PyStr.

(* ------------------------------------------------------------------ *)
(** ** Regular expressions, as far as [movie_patterns] needs them *)

Module Re.

(** Character classes of the patterns. *)
Definition in_range (lo hi : N) (c : ascii) : bool :=
  let n := N_of_ascii c in ((lo <=? n) && (n <=? hi))%N.

(** [\w] on code points below 256: alphanumeric or underscore. *)
Definition word_char (c : ascii) : bool :=
  existsb (fun r => in_range (fst r) (snd r) c)
    [(48, 57); (65, 90); (95, 95); (97, 122); (170, 170); (178, 179);
     (181, 181); (185, 186); (188, 190); (192, 214); (216, 246);
     (248, 255)]%N.

(** [\s] on code points below 256. *)
Definition space_char (c : ascii) : bool :=
  existsb (fun r => in_range (fst r) (snd r) c)
    [(9, 13); (28, 32); (133, 133); (160, 160)]%N.

(** [[^q]] *)
Definition not_char (q : ascii) (c : ascii) : bool := negb (Ascii.eqb q c).

(** The fragment of the pattern language the source uses.  Every
    repetition in [movie_patterns] is a greedy [+] over a character
    class, and every pattern has exactly one capturing group. *)
Inductive regex : Type :=
| Lit (s : string)                 (* literal text, compared ignoring case *)
| Plus (cls : ascii -> bool)       (* cls+ , greedy *)
| Cat (r1 r2 : regex)              (* r1 r2 *)
| Alt (r1 r2 : regex)              (* r1|r2 , left alternative first *)
| Group (r : regex).               (* ( r ) , the capturing group *)

(** Literal match under [re.IGNORECASE].  The strings of this file hold
    code points below 256, and on those two characters match exactly when
    their lowercase forms are equal.  (Beyond that alphabet [re] also
    pairs s with U+017F, k with U+212A and i with U+0130 and U+0131,
    which [str.lower] keeps apart; what is proved below about literals is
    therefore stated on matches, never on lowercased text.) *)
Fixpoint match_lit (p s : string) : option string :=
  match p, s with
  | EmptyString, _ => Some s
  | String _ _, EmptyString => None
  | String a p', String b s' =>
      if Ascii.eqb (lower_char a) (lower_char b) then match_lit p' s'
      else None
  end.

(** All ways [cls+] can consume a prefix of [s], longest first (greedy
    with backtracking): pairs (consumed, rest). *)
Fixpoint plus_splits (cls : ascii -> bool) (s : string)
  : list (string * string) :=
  match s with
  | EmptyString => []
  | String c s' =>
      if cls c then
        map (fun cr => (String c (fst cr), snd cr)) (plus_splits cls s')
        ++ [(String c EmptyString, s')]
      else []
  end.

(** One way of matching a prefix: what was consumed, what the group
    captured (if the group took part), and the text left over. *)
Record outcome : Type := mk_outcome {
  consumed : string;
  captured : option string;
  rest : string
}.

Definition join_capture (a b : option string) : option string :=
  match b with Some _ => b | None => a end.

(** Every way [r] matches a prefix of [s], in the order a backtracking
    matcher tries them; the head is the match [re] reports at this
    position. *)
Fixpoint matches (r : regex) (s : string) : list outcome :=
  match r with
  | Lit p =>
      match match_lit p s with
      | Some s' =>
          [mk_outcome (substring 0 (String.length p) s) None s']
      | None => []
      end
  | Plus cls =>
      map (fun cr => mk_outcome (fst cr) None (snd cr)) (plus_splits cls s)
  | Cat r1 r2 =>
      flat_map (fun o1 =>
        map (fun o2 =>
               mk_outcome (consumed o1 ++ consumed o2)
                          (join_capture (captured o1) (captured o2))
                          (rest o2))
            (matches r2 (rest o1)))
        (matches r1 s)
  | Alt r1 r2 => matches r1 s ++ matches r2 s
  | Group r' =>
      map (fun o => mk_outcome (consumed o) (Some (consumed o)) (rest o))
          (matches r' s)
  end.

(** [re.findall(pattern, text, re.IGNORECASE)] for a pattern with one
    group: scan left to right; at each position take the first match, if
    any, record its group and resume after it; otherwise move one
    character on.  [skip] counts the characters of the last match that
    are still to be stepped over.  (No pattern of the source matches the
    empty string.) *)
Fixpoint findall_from (r : regex) (skip : nat) (s : string) : list string :=
  match skip with
  | S k =>
      match s with
      | EmptyString => []
      | String _ s' => findall_from r k s'
      end
  | O =>
      match s with
      | EmptyString => []
      | String _ s' =>
          match matches r s with
          | o :: _ =>
              match captured o with
              | Some g => g
              | None => EmptyString
              end :: findall_from r (Nat.pred (String.length (consumed o))) s'
          | [] => findall_from r 0 s'
          end
      end
  end.

Definition findall (r : regex) (s : string) : list string :=
  findall_from r 0 s.

(** [re.search(pattern, text, re.IGNORECASE) is not None]: the pattern
    matches at some position of the text. *)
Fixpoint search (r : regex) (s : string) : bool :=
  match matches r s with
  | _ :: _ => true
  | [] =>
      match s with
      | EmptyString => false
      | String _ s' => search r s'
      end
  end.

(** [(?:movie|film|trailer|teaser)] *)
Definition alt_words (ws : list string) : regex :=
  match ws with
  | [] => Lit EmptyString
  | w :: ws' => fold_left (fun acc x => Alt acc (Lit x)) ws' (Lit w)
  end.

End Re.

(* ------------------------------------------------------------------ *)
(** ** The classifiers *)

Module Classifier.

(** The dict built by [extract_movie_info] (five keys). *)
Record base_info : Type := mk_base_info {
  b_movie_name : string;
  b_actor_name : string;
  b_director_name : string;
  b_update_type : string;
  b_language : string
}.

(** The dict built by [enhanced_extract_movie_info] (six keys). *)
Record info : Type := mk_info {
  movie_name : string;
  actor_name : string;
  director_name : string;
  production_house : string;
  update_type : string;
  language : string
}.

(** *** [extract_movie_info] (app.py 344-387) *)

(** The [if / elif / else] chain on update types. *)
Definition base_update_type (text : string) : string :=
  if any_in ["trailer"; "official trailer"] (lower text) then "trailer"
  else if any_in ["teaser"; "glimpse"] (lower text) then "teaser"
  else if any_in ["poster"; "first look"] (lower text) then "poster"
  else if any_in ["release"; "announcement"] (lower text) then "announcement"
  else "news".

(** The [if / elif] chain on languages; without a match the initial
    [''] stays. *)
Definition base_language (text : string) : string :=
  if any_in ["telugu"; "tollywood"] (lower text) then "telugu"
  else if any_in ["tamil"; "kollywood"] (lower text) then "tamil"
  else if any_in ["hindi"; "bollywood"] (lower text) then "hindi"
  else "".

(** [movie_patterns] and [actor_patterns] are bound to local names and
    never read: the keys [movie_name], [actor_name] and [director_name]
    keep the [''] they were created with. *)
Definition extract_movie_info (text : string) : base_info :=
  {| b_movie_name := "";
     b_actor_name := "";
     b_director_name := "";
     b_update_type := base_update_type text;
     b_language := base_language text |}.

(** *** [enhanced_extract_movie_info] (app.py 951-1068) *)

Definition telugu_actors : list (string * string) :=
  [ ("allu arjun", "Allu Arjun");
    ("prabhas", "Prabhas");
    ("mahesh babu", "Mahesh Babu");
    ("jr ntr", "Jr. NTR");
    ("ntr", "Jr. NTR");
    ("ram charan", "Ram Charan");
    ("chiranjeevi", "Chiranjeevi");
    ("balakrishna", "Balakrishna");
    ("vijay deverakonda", "Vijay Deverakonda");
    ("nani", "Nani");
    ("ravi teja", "Ravi Teja");
    ("nithiin", "Nithiin");
    ("sharwanand", "Sharwanand") ].

Definition directors : list (string * string) :=
  [ ("rajamouli", "S.S. Rajamouli");
    ("puri jagannadh", "Puri Jagannadh");
    ("trivikram", "Trivikram Srinivas");
    ("koratala siva", "Koratala Siva");
    ("sukumar", "Sukumar");
    ("vamshi paidipally", "Vamshi Paidipally") ].

Definition production_houses : list (string * string) :=
  [ ("geetha arts", "Geetha Arts");
    ("mythri movie makers", "Mythri Movie Makers");
    ("people media factory", "People Media Factory");
    ("sri venkateswara creations", "Sri Venkateswara Creations");
    ("vyjayanthi movies", "Vyjayanthi Movies");
    ("dvv entertainments", "DVV Entertainments") ].

(** [for key, name in table.items(): if key in text_lower: field = name;
    break], started from the field's current value. *)
Fixpoint scan_table (table : list (string * string)) (text_lower : string)
                    (current : string) : string :=
  match table with
  | [] => current
  | (key, name) :: table' =>
      if contains key text_lower then name
      else scan_table table' text_lower current
  end.

Definition trailer_words : list string := ["trailer"; "official trailer"].
Definition teaser_words : list string := ["teaser"; "glimpse"; "sneak peek"].
Definition poster_words : list string :=
  ["poster"; "first look"; "character poster"].
Definition announcement_words : list string :=
  ["release date"; "announcement"; "official"].
Definition box_office_words : list string :=
  ["box office"; "collection"; "earnings"].
Definition review_words : list string := ["review"; "rating"].

Definition enhanced_update_type (text_lower : string) : string :=
  if any_in trailer_words text_lower then "trailer"
  else if any_in teaser_words text_lower then "teaser"
  else if any_in poster_words text_lower then "poster"
  else if any_in announcement_words text_lower then "announcement"
  else if any_in box_office_words text_lower then "box_office"
  else if any_in review_words text_lower then "review"
  else "news".

Definition telugu_words : list string :=
  ["telugu"; "tollywood"; "andhra"; "telangana"].
Definition tamil_words : list string := ["tamil"; "kollywood"; "tamilnadu"].
Definition hindi_words : list string := ["hindi"; "bollywood"; "mumbai"].
Definition malayalam_words : list string :=
  ["malayalam"; "mollywood"; "kerala"].
Definition kannada_words : list string :=
  ["kannada"; "sandalwood"; "karnataka"].

(** The language chain has no [else]: [current] is what the field held. *)
Definition enhanced_language (text_lower current : string) : string :=
  if any_in telugu_words text_lower then "telugu"
  else if any_in tamil_words text_lower then "tamil"
  else if any_in hindi_words text_lower then "hindi"
  else if any_in malayalam_words text_lower then "malayalam"
  else if any_in kannada_words text_lower then "kannada"
  else current.

Import Re.

Definition title_words : regex :=
  alt_words ["movie"; "film"; "trailer"; "teaser"].

(** [movie_patterns], in list order. *)
Definition hashtag_pattern : regex :=            (* #(\w+)(?:movie|film|trailer|teaser) *)
  Cat (Lit "#") (Cat (Group (Plus word_char)) title_words).
Definition spaced_pattern : regex :=             (* (\w+)\s+(?:movie|film|trailer|teaser) *)
  Cat (Group (Plus word_char)) (Cat (Plus space_char) title_words).
Definition double_quoted_pattern : regex :=      (* a double-quoted run: quote ([^quote]+) quote *)
  Cat (Lit (String (ascii_of_N 34) EmptyString))
    (Cat (Group (Plus (not_char (ascii_of_N 34))))
         (Lit (String (ascii_of_N 34) EmptyString))).
Definition single_quoted_pattern : regex :=      (* the same with single quotes *)
  Cat (Lit "'") (Cat (Group (Plus (not_char "'"%char))) (Lit "'")).

Definition movie_patterns : list regex :=
  [hashtag_pattern; spaced_pattern; double_quoted_pattern;
   single_quoted_pattern].

(** [for pattern in movie_patterns: matches = re.findall(...);
    if matches: movie_name = matches[0]; break] *)
Fixpoint scan_patterns (patterns : list regex) (text current : string)
  : string :=
  match patterns with
  | [] => current
  | pattern :: patterns' =>
      match findall pattern text with
      | m :: _ => m
      | [] => scan_patterns patterns' text current
      end
  end.

Definition enhanced_extract_movie_info (text : string) : info :=
  let text_lower := lower text in
  {| actor_name := scan_table telugu_actors text_lower "";
     director_name := scan_table directors text_lower "";
     production_house := scan_table production_houses text_lower "";
     update_type := enhanced_update_type text_lower;
     language := enhanced_language text_lower "";
     movie_name := scan_patterns movie_patterns text "" |}.

End Classifier.

(* ------------------------------------------------------------------ *)
(** ** Exceptions and state *)

Module Py.

Inductive exn : Type :=
| AttributeError (type_name attribute : string)
| OverflowError.

Inductive result (A : Type) : Type :=
| Normal (value : A)
| Raise (e : exn).
Arguments Normal {A} value.
Arguments Raise {A} e.

(** A computation over a state [S] that returns or raises; the state
    survives a raise. *)
Definition M (S A : Type) : Type := S -> result A * S.

Definition ret {S A} (a : A) : M S A := fun s => (Normal a, s).
Definition raise {S A} (e : exn) : M S A := fun s => (Raise e, s).
Definition bind {S A B} (m : M S A) (k : A -> M S B) : M S B :=
  fun s =>
    match m s with
    | (Normal a, s') => k a s'
    | (Raise e, s') => (Raise e, s')
    end.

(** [try: body  except Exception as e: handler(e)] *)
Definition try_except {S A} (body : M S A) (handler : exn -> M S A)
  : M S A :=
  fun s =>
    match body s with
    | (Normal a, s') => (Normal a, s')
    | (Raise e, s') => handler e s'
    end.

Definition modify {S} (f : S -> S) : M S unit := fun s => (Normal tt, f s).

End Py.

Import Py.

Declare Scope py_scope.
Delimit Scope py_scope with py.
Notation "x <- m ;; k" := (bind m (fun x => k))
  (at level 61, m at next level, right associativity) : py_scope.
Notation "m ;;; k" := (bind m (fun _ => k))
  (at level 61, right associativity) : py_scope.

(* ------------------------------------------------------------------ *)
(** ** The [movie_updates] table and the persistence gate *)

Module Db.

(** One row of [movie_updates] (app.py 118-138). *)
Record row : Type := mk_row {
  id : Z;
  platform : string;
  account_name : string;
  content_id : string;
  title : string;
  content : string;
  url : string;
  language : string;
  movie_name : string;
  actor_name : string;
  director_name : string;
  production_house : string;
  update_type : string;
  engagement_count : Z;
  created_at : Z;
  posted_to_telegram : bool
}.

(** The database file: the rows of the table in rowid order, and the
    [AUTOINCREMENT] counter (the largest rowid ever handed out). *)
Record database : Type := mk_database {
  movie_updates : list row;
  movie_updates_seq : Z
}.

(** What [init_database] leaves on a fresh file. *)
Definition empty_database : database := mk_database [] 0.

(** A [sqlite3] connection: the file as last committed, and the
    connection's own view with its uncommitted changes. *)
Record connection : Type := mk_connection {
  committed : database;
  working : database
}.

Definition connect (db : database) : connection := mk_connection db db.
Definition commit (conn : connection) : connection :=
  mk_connection (working conn) (working conn).
(** [conn.close()] drops what was not committed. *)
Definition close (conn : connection) : database := committed conn.

(** A value bound to a statement: a [str] or an [int].  The signature of
    [save_movie_update] asks for a [str] as [content_id]; the twitter loop
    hands it [tweet.id], an [int]. *)
Inductive param : Type :=
| PText (s : string)
| PInt (n : Z).

Coercion PText : string >-> param.

(** The decimal text of an integer. *)
Definition int_text (n : Z) : string := NilZero.string_of_int (Z.to_int n).

(** What a [TEXT] column keeps of a bound value. *)
Definition text_of (p : param) : string :=
  match p with
  | PText s => s
  | PInt n => int_text n
  end.

(** The integers SQLite can hold: 64 bits, signed. *)
Definition in_int64 (n : Z) : bool :=
  ((- 9223372036854775808 <=? n) && (n <=? 9223372036854775807))%Z.

(** The thirteen values bound to the [INSERT]. *)
Record values : Type := mk_values {
  v_platform : string;
  v_account_name : string;
  v_content_id : param;
  v_title : string;
  v_content : string;
  v_url : string;
  v_language : string;
  v_movie_name : string;
  v_actor_name : string;
  v_director_name : string;
  v_production_house : string;
  v_update_type : string;
  v_engagement_count : Z
}.

(** [UNIQUE(platform, content_id)]: does a row with this key exist? *)
Definition has_key (p c : string) (r : row) : bool :=
  String.eqb (platform r) p && String.eqb (content_id r) c.

Definition key_present (p c : string) (db : database) : bool :=
  existsb (has_key p c) (movie_updates db).

Definition new_row (rowid : Z) (v : values) (now : Z) : row :=
  {| id := rowid;
     platform := v_platform v;
     account_name := v_account_name v;
     content_id := text_of (v_content_id v);
     title := v_title v;
     content := v_content v;
     url := v_url v;
     language := v_language v;
     movie_name := v_movie_name v;
     actor_name := v_actor_name v;
     director_name := v_director_name v;
     production_house := v_production_house v;
     update_type := v_update_type v;
     engagement_count := v_engagement_count v;
     created_at := now;                  (* DEFAULT CURRENT_TIMESTAMP *)
     posted_to_telegram := false |}.     (* DEFAULT FALSE *)

(** [INSERT OR IGNORE INTO movie_updates (...) VALUES (...)]: a row that
    would break the uniqueness constraint is skipped, and the statement
    succeeds either way.  The [AUTOINCREMENT] counter is advanced by every
    such statement, also by one whose row is skipped. *)
Definition insert_or_ignore (v : values) (now : Z) (db : database)
  : database :=
  let rowid := (movie_updates_seq db + 1)%Z in
  if key_present (v_platform v) (text_of (v_content_id v)) db then
    {| movie_updates := movie_updates db;
       movie_updates_seq := rowid |}
  else
    {| movie_updates := movie_updates db ++ [new_row rowid v now];
       movie_updates_seq := rowid |}.

(** The values can be bound: every [int] among them fits 64 bits. *)
Definition bindable (v : values) : bool :=
  match v_content_id v with
  | PText _ => true
  | PInt n => in_int64 n
  end
  && in_int64 (v_engagement_count v).

(** [conn.execute(insert, params)]: an [int] that does not fit raises
    [OverflowError] while the parameters are bound, before the statement
    runs. *)
Definition execute_insert (v : values) (now : Z) : M connection unit :=
  if bindable v then
    modify (fun conn =>
      mk_connection (committed conn) (insert_or_ignore v now (working conn)))
  else raise OverflowError.

(** [conn.commit()] *)
Definition do_commit : M connection unit := modify commit.

(** Python values this part of the program passes around. *)
Inductive value : Type :=
| VNone
| VInt (n : Z)
| VBool (b : bool)
| VObject.

(** Truth value, as [if v] and [v and ...] take it. *)
Definition truth (v : value) : bool :=
  match v with
  | VNone => false
  | VInt n => negb (n =? 0)%Z
  | VBool b => b
  | VObject => true
  end.

(** Attribute lookup on a [sqlite3.Connection].  The data attributes of
    the class are the five below; [lastrowid] belongs to
    [sqlite3.Cursor], a connection has none, and reading it raises. *)
Definition connection_getattr (name : string) : M connection value :=
  if String.eqb name "in_transaction" then ret VObject
  else if String.eqb name "total_changes" then ret VObject
  else if String.eqb name "isolation_level" then ret VObject
  else if String.eqb name "row_factory" then ret VObject
  else if String.eqb name "text_factory" then ret VObject
  else raise (AttributeError "sqlite3.Connection" name).

(** [with self.get_connection() as conn: body]; the [finally] of
    [get_connection] closes the connection whether or not [body]
    raised. *)
Definition with_connection {A} (body : M connection A) : M database A :=
  fun db => let (r, conn) := body (connect db) in (r, close conn).

(** The keyword arguments of [save_movie_update]; [None] is a key the
    caller did not pass. *)
Record kwargs : Type := mk_kwargs {
  kw_language : option string;
  kw_movie_name : option string;
  kw_actor_name : option string;
  kw_director_name : option string;
  kw_production_house : option string;
  kw_update_type : option string;
  kw_engagement_count : option Z
}.

(** [kwargs.get(key, default)] *)
Definition get {A} (v : option A) (default : A) : A :=
  match v with Some a => a | None => default end.

Record save_args : Type := mk_save_args {
  a_platform : string;
  a_account_name : string;
  a_content_id : param;
  a_title : string;
  a_content : string;
  a_url : string;
  a_kwargs : kwargs
}.

Definition bound_values (a : save_args) : values :=
  {| v_platform := a_platform a;
     v_account_name := a_account_name a;
     v_content_id := a_content_id a;
     v_title := a_title a;
     v_content := a_content a;
     v_url := a_url a;
     v_language := get (kw_language (a_kwargs a)) "";
     v_movie_name := get (kw_movie_name (a_kwargs a)) "";
     v_actor_name := get (kw_actor_name (a_kwargs a)) "";
     v_director_name := get (kw_director_name (a_kwargs a)) "";
     v_production_house := get (kw_production_house (a_kwargs a)) "";
     v_update_type := get (kw_update_type (a_kwargs a)) "";
     v_engagement_count := get (kw_engagement_count (a_kwargs a)) 0%Z |}.

(** [DatabaseManager.save_movie_update] (app.py 255-275).  [now] is the
    clock reading [CURRENT_TIMESTAMP] takes.  Inside the [with] block the
    insert runs, the transaction is committed, and the value to return is
    read as [conn.lastrowid], from the connection; the handler of the
    enclosing [try] logs the error, whichever statement raised it, and
    returns [None]. *)
Definition save_movie_update (a : save_args) (now : Z)
  : M database value :=
  try_except
    (with_connection
       (execute_insert (bound_values a) now ;;;
        do_commit ;;;
        connection_getattr "lastrowid")%py)
    (fun _ => ret VNone).

End Db.

(* ------------------------------------------------------------------ *)
(** ** The pollers: what happens to one fetched item *)

Module Poller.

Import Classifier Db.

(** A row of [social_accounts], as far as the loops read it. *)
Record account : Type := mk_account {
  acc_name : string;
  acc_username : string;
  acc_language : string
}.

(** A tweet; [tw_public_metrics] is the [like_count] of its
    [public_metrics] when the API sent them. *)
Record tweet : Type := mk_tweet {
  tw_id : Z;
  tw_text : string;
  tw_created_at : Z;
  tw_public_metrics : option Z
}.

(** An entry of the instagram media list; [None] is a key the response
    does not have. *)
Record post : Type := mk_post {
  ig_id : string;
  ig_caption : option string;
  ig_media_type : string;
  ig_media_url : option string;
  ig_thumbnail_url : option string;
  ig_timestamp : Z;
  ig_permalink : string;
  ig_like_count : option Z
}.

(** A youtube search result. *)
Record video : Type := mk_video {
  yt_video_id : string;
  yt_title : string;
  yt_description : string;
  yt_channel_title : string
}.

(** A news article; a missing or null description is [None]. *)
Record article : Type := mk_article {
  ar_title : string;
  ar_description : option string;
  ar_url : string
}.

(** The parts a notification text is put together from (the markup and
    the pictographs of the rendered message are left out). *)
Record notification : Type := mk_notification {
  n_account : string;
  n_movie : string;
  n_actor : string;
  n_excerpt : string;
  n_likes : option Z;
  n_link : string;
  n_photo : option string
}.

(** Calls the loop bodies make to the three collaborators. *)
Inductive event : Type :=
| Classified (text : string)
| Saved (a : save_args)
| Notified (n : notification).

Record world : Type := mk_world {
  store : database;
  trace : list event
}.

Definition emit (e : event) : M world unit :=
  modify (fun w => mk_world (store w) (trace w ++ [e])).

(** The notifications among the calls made, in the order sent. *)
Fixpoint notifications (events : list event) : list notification :=
  match events with
  | [] => []
  | Notified n :: events' => n :: notifications events'
  | _ :: events' => notifications events'
  end.

(** Two clock readings per iteration: [datetime.now(...)] in the loop
    and [CURRENT_TIMESTAMP] in the database. *)
Record tick : Type := mk_tick {
  t_now : Z;
  t_stamp : Z
}.

Definition hours (n : Z) : Z := (n * 3600 * 1000000)%Z.   (* timedelta(hours=n) *)

(** [str(n)] *)
Definition str_of_Z (n : Z) : string := int_text n.

(** [x in [...]] on strings *)
Definition mem (x : string) (l : list string) : bool :=
  existsb (String.eqb x) l.

(** [db_manager.save_movie_update(...)] from a loop *)
Definition call_save (a : save_args) (stamp : Z) : M world value :=
  (emit (Saved a) ;;;
   fun w => let (r, db') := save_movie_update a stamp (store w) in
            (r, mk_world db' (trace w)))%py.

Definition call_extract (text : string) : M world base_info :=
  (emit (Classified text) ;;; ret (extract_movie_info text))%py.

Definition call_enhanced_extract (text : string) : M world info :=
  (emit (Classified text) ;;; ret (enhanced_extract_movie_info text))%py.

(** *** [monitor_twitter] (app.py 451-481) *)

Definition twitter_engagement (t : tweet) : Z :=
  match tw_public_metrics t with Some like_count => like_count | None => 0%Z end.

Definition twitter_args (acc : account) (t : tweet) (movie_info : base_info)
  : save_args :=
  {| a_platform := "twitter";
     a_account_name := acc_name acc;
     a_content_id := PInt (tw_id t);
     a_title := "Tweet by " ++ acc_name acc;
     a_content := tw_text t;
     a_url := "https://twitter.com/" ++ acc_username acc ++ "/status/"
              ++ str_of_Z (tw_id t);
     a_kwargs :=
       {| kw_language := Some (or_else (b_language movie_info) (acc_language acc));
          kw_movie_name := Some (b_movie_name movie_info);
          kw_actor_name := Some (b_actor_name movie_info);
          kw_director_name := None;
          kw_production_house := None;
          kw_update_type := Some (b_update_type movie_info);
          kw_engagement_count := Some (twitter_engagement t) |} |}.

(** The condition of the [if] in front of the notification. *)
Definition twitter_significant (update_id : value) (movie_info : base_info)
                               (t : tweet) : bool :=
  truth update_id &&
  (mem (b_update_type movie_info) ["trailer"; "teaser"; "poster"] ||
   match tw_public_metrics t with
   | Some like_count => (like_count >? 500)%Z
   | None => false
   end).

Definition twitter_notification (acc : account) (t : tweet) : notification :=
  {| n_account := acc_name acc;
     n_movie := "";
     n_actor := "";
     n_excerpt := take 300 (tw_text t);
     n_likes := None;
     n_link := "https://twitter.com/" ++ acc_username acc ++ "/status/"
               ++ str_of_Z (tw_id t);
     n_photo := None |}.

(** The body of [for tweet in tweets.data]. *)
Definition process_tweet (acc : account) (k : tick) (t : tweet)
  : M world unit :=
  if (tw_created_at t <? t_now k - hours 24)%Z then ret tt      (* continue *)
  else
    (movie_info <- call_extract (tw_text t) ;;
     update_id <- call_save (twitter_args acc t movie_info) (t_stamp k) ;;
     if twitter_significant update_id movie_info t
     then emit (Notified (twitter_notification acc t))
     else ret tt)%py.

Fixpoint for_each {S A} (body : A -> M S unit) (items : list A) : M S unit :=
  match items with
  | [] => ret tt
  | x :: items' => (body x ;;; for_each body items')%py
  end.

Definition process_tweets (acc : account) (batch : list (tick * tweet))
  : M world unit :=
  for_each (fun kt => process_tweet acc (fst kt) (snd kt)) batch.

(** *** [monitor_instagram] (app.py 526-552) *)

Definition instagram_args (acc : account) (p : post) (movie_info : base_info)
  : save_args :=
  {| a_platform := "instagram";
     a_account_name := acc_name acc;
     a_content_id := ig_id p;
     a_title := "Instagram post by " ++ acc_name acc;
     a_content := get (ig_caption p) "";
     a_url := ig_permalink p;
     a_kwargs :=
       {| kw_language := Some (or_else (b_language movie_info) (acc_language acc));
          kw_movie_name := Some (b_movie_name movie_info);
          kw_actor_name := None;
          kw_director_name := None;
          kw_production_house := None;
          kw_update_type := Some (b_update_type movie_info);
          kw_engagement_count := None |} |}.

(** *** [monitor_youtube] (app.py 603-627) *)

Definition youtube_args (v : video) (movie_info : base_info) : save_args :=
  {| a_platform := "youtube";
     a_account_name := yt_channel_title v;
     a_content_id := yt_video_id v;
     a_title := yt_title v;
     a_content := yt_description v;
     a_url := "https://www.youtube.com/watch?v=" ++ yt_video_id v;
     a_kwargs :=
       {| kw_language := Some (b_language movie_info);
          kw_movie_name := Some (b_movie_name movie_info);
          kw_actor_name := None;
          kw_director_name := None;
          kw_production_house := None;
          kw_update_type := Some (b_update_type movie_info);
          kw_engagement_count := None |} |}.

(** *** [monitor_news_websites] (app.py 919-937) *)

(** [s.split('/')[-1]]: what follows the last slash. *)
Fixpoint after_last_slash (current s : string) : string :=
  match s with
  | EmptyString => current
  | String c s' =>
      if Ascii.eqb c "/"%char then after_last_slash EmptyString s'
      else after_last_slash (current ++ String c EmptyString) s'
  end.

Definition news_text (a : article) : string :=
  ar_title a ++ " " ++ get (ar_description a) "".

Definition news_args (source : string) (a : article) (movie_info : base_info)
  : save_args :=
  {| a_platform := "news";
     a_account_name := source;
     a_content_id := after_last_slash EmptyString (ar_url a);
     a_title := ar_title a;
     a_content := get (ar_description a) "";
     a_url := ar_url a;
     a_kwargs :=
       {| kw_language := Some (b_language movie_info);
          kw_movie_name := Some (b_movie_name movie_info);
          kw_actor_name := None;
          kw_director_name := None;
          kw_production_house := None;
          kw_update_type := Some (b_update_type movie_info);
          kw_engagement_count := None |} |}.

(** *** [monitor_instagram_enhanced] (app.py 1097-1145) *)

Definition instagram_enhanced_args (acc : account) (p : post)
                                   (movie_info : info) : save_args :=
  {| a_platform := "instagram";
     a_account_name := acc_name acc;
     a_content_id := ig_id p;
     a_title := "Instagram post by " ++ acc_name acc;
     a_content := get (ig_caption p) "";
     a_url := ig_permalink p;
     a_kwargs :=
       {| kw_language :=
            Some (or_else (Classifier.language movie_info) (acc_language acc));
          kw_movie_name := Some (Classifier.movie_name movie_info);
          kw_actor_name := Some (Classifier.actor_name movie_info);
          kw_director_name := Some (Classifier.director_name movie_info);
          kw_production_house := Some (Classifier.production_house movie_info);
          kw_update_type := Some (Classifier.update_type movie_info);
          kw_engagement_count := Some (get (ig_like_count p) 0%Z) |} |}.

Definition instagram_enhanced_significant (update_id : value)
    (movie_info : info) (p : post) : bool :=
  truth update_id &&
  (mem (Classifier.update_type movie_info)
       ["trailer"; "teaser"; "poster"; "announcement"] ||
   (get (ig_like_count p) 0 >? 1000)%Z).

Definition instagram_photo_url (p : post) : option string :=
  if String.eqb (ig_media_type p) "IMAGE" then ig_media_url p
  else ig_thumbnail_url p.

Definition instagram_enhanced_notification (acc : account) (p : post)
    (movie_info : info) : notification :=
  {| n_account := acc_name acc;
     n_movie := Classifier.movie_name movie_info;
     n_actor := Classifier.actor_name movie_info;
     n_excerpt := take 250 (get (ig_caption p) "");
     n_likes := match ig_like_count p with
                | Some n => if (n =? 0)%Z then None else Some n
                | None => None
                end;
     n_link := ig_permalink p;
     n_photo := instagram_photo_url p |}.

(** The body of [for post in data.get('data', [])]. *)
Definition process_post_enhanced (acc : account) (k : tick) (p : post)
  : M world unit :=
  if (ig_timestamp p <? t_now k - hours 12)%Z then ret tt       (* continue *)
  else
    let caption := get (ig_caption p) "" in
    if negb (truthy caption) then ret tt                         (* continue *)
    else
      (movie_info <- call_enhanced_extract caption ;;
       update_id <- call_save (instagram_enhanced_args acc p movie_info)
                              (t_stamp k) ;;
       if instagram_enhanced_significant update_id movie_info p
       then emit (Notified (instagram_enhanced_notification acc p movie_info))
       else ret tt)%py.

(** *** [monitor_youtube_enhanced], the search branch (app.py 1285-1305) *)

Definition youtube_search_args (v : video) (movie_info : info) : save_args :=
  {| a_platform := "youtube";
     a_account_name := yt_channel_title v;
     a_content_id := yt_video_id v;
     a_title := yt_title v;
     a_content := yt_description v;
     a_url := "https://www.youtube.com/watch?v=" ++ yt_video_id v;
     a_kwargs :=
       {| kw_language := Some (Classifier.language movie_info);
          kw_movie_name := Some (Classifier.movie_name movie_info);
          kw_actor_name := Some (Classifier.actor_name movie_info);
          kw_director_name := None;
          kw_production_house := None;
          kw_update_type := Some (Classifier.update_type movie_info);
          kw_engagement_count := None |} |}.

End Poller.

(* ------------------------------------------------------------------ *)
(** ** The read accessor [/api/updates] *)

Module Api.

Import Db.

(** The query string after [request.args.get] and [int(...)]: a filter
    that was not sent is [None]; [page] and [per_page] fall back to 1
    and 20. *)
Record request_args : Type := mk_request_args {
  q_platform : option string;
  q_language : option string;
  q_update_type : option string;
  q_page : option Z;
  q_per_page : option Z
}.

Inductive column : Type := Platform | Language | UpdateType.

Definition column_of (c : column) (r : row) : string :=
  match c with
  | Platform => platform r
  | Language => language r
  | UpdateType => update_type r
  end.

(** The [WHERE 1=1 AND col = ? ...] being built, with the parameter of
    each comparison next to it. *)
Definition where_clause : Type := list (column * string).

(** [if v: query += ' AND col = ?'; params.append(v)] *)
Definition add_filter (c : column) (v : option string) (w : where_clause)
  : where_clause :=
  match v with
  | Some x => if truthy x then w ++ [(c, x)] else w
  | None => w
  end.

Definition eval_where (w : where_clause) (r : row) : bool :=
  forallb (fun cv => String.eqb (column_of (fst cv) r) (snd cv)) w.

(** [ORDER BY created_at DESC].  SQLite leaves the order among rows with
    equal keys open; here they stay in table order. *)
Fixpoint insert_desc (r : row) (sorted : list row) : list row :=
  match sorted with
  | [] => [r]
  | x :: sorted' =>
      if (created_at x <=? created_at r)%Z then r :: x :: sorted'
      else x :: insert_desc r sorted'
  end.

Definition order_by_created_at_desc (rows : list row) : list row :=
  fold_right insert_desc [] rows.

(** [LIMIT ? OFFSET ?]: a negative limit is no limit, a negative offset
    is none. *)
Definition limit_offset (limit offset : Z) (rows : list row) : list row :=
  let rows' := skipn (Z.to_nat offset) rows in
  if (limit <? 0)%Z then rows' else firstn (Z.to_nat limit) rows'.

(** The body of the answer. *)
Record response : Type := mk_response {
  r_updates : list row;
  r_total : Z;
  r_page : Z;
  r_per_page : Z
}.

(** [get_updates] (app.py 752-791).  The two numbers bound to
    [LIMIT ? OFFSET ?] are Python integers of any size; one that does not
    fit 64 bits raises [OverflowError] when the first statement is
    executed.  The route has no handler of its own, so the request fails
    (the framework answers 500) and no body is sent. *)
Definition get_updates (args : request_args) (db : database)
  : result response :=
  let page := get (q_page args) 1%Z in
  let per_page := get (q_per_page args) 20%Z in
  let w := add_filter UpdateType (q_update_type args)
             (add_filter Language (q_language args)
                (add_filter Platform (q_platform args) [])) in
  let selected := filter (eval_where w) (movie_updates db) in
  if in_int64 per_page && in_int64 ((page - 1) * per_page) then
    Normal
      {| r_updates := limit_offset per_page ((page - 1) * per_page)
                        (order_by_created_at_desc selected);
         r_total := Z.of_nat (List.length selected);
         r_page := page;
         r_per_page := per_page |}
  else Raise OverflowError.

(** The rows a request is answered with: those of the body, none when
    the request failed. *)
Definition updates (answer : result response) : list row :=
  match answer with
  | Normal body => r_updates body
  | Raise _ => []
  end.

(** The count a request is answered with, if any. *)
Definition total (answer : result response) : option Z :=
  match answer with
  | Normal body => Some (r_total body)
  | Raise _ => None
  end.

End Api.

(* ------------------------------------------------------------------ *)
(** ** What the specification says, in its own words *)

Module Spec.

Import Db.

(** A priority cascade of keyword sets: the label of the first set, in
    the order given, one of whose keywords occurs in the text; [default]
    when none does. *)
Definition cascade (sets : list (list string * string)) (default : string)
                   (text : string) : string :=
  match find (fun e => any_in (fst e) text) sets with
  | Some e => snd e
  | None => default
  end.

(** Section 4.1, step 2: trailer > teaser > poster > announcement >
    box_office > review, with the keyword sets of the source. *)
Definition update_type_sets : list (list string * string) :=
  [ (Classifier.trailer_words, "trailer");
    (Classifier.teaser_words, "teaser");
    (Classifier.poster_words, "poster");
    (Classifier.announcement_words, "announcement");
    (Classifier.box_office_words, "box_office");
    (Classifier.review_words, "review") ].

(** Section 4.1, step 3: telugu > tamil > hindi > malayalam > kannada. *)
Definition language_sets : list (list string * string) :=
  [ (Classifier.telugu_words, "telugu");
    (Classifier.tamil_words, "tamil");
    (Classifier.hindi_words, "hindi");
    (Classifier.malayalam_words, "malayalam");
    (Classifier.kannada_words, "kannada") ].

(** First entry of a table, in table order, whose alias occurs in the
    text; empty when none does. *)
Definition first_entry (table : list (string * string)) (text : string)
  : string :=
  match find (fun e => contains (fst e) text) table with
  | Some e => snd e
  | None => ""
  end.

(** The notification rule of section 4.3. *)
Definition should_notify (inserted : bool) (update_type : string)
                         (engagement_count threshold : Z) : bool :=
  inserted &&
  (existsb (String.eqb update_type) ["trailer"; "teaser"; "poster"] ||
   (engagement_count >? threshold)%Z).

(** A filter of the read accessor holds of a value when it was not
    supplied (absent or empty) or equals it. *)
Definition filter_holds (supplied : option string) (actual : string) : bool :=
  match supplied with
  | Some v => if truthy v then String.eqb actual v else true
  | None => true
  end.

Definition all_filters_hold (args : Api.request_args) (r : row) : bool :=
  filter_holds (Api.q_platform args) (platform r) &&
  filter_holds (Api.q_language args) (language r) &&
  filter_holds (Api.q_update_type args) (update_type r).

(** Newest first. *)
Definition newest_first (rows : list row) : Prop :=
  StronglySorted (fun a b => (created_at b <= created_at a)%Z) rows.

End Spec.

(* ------------------------------------------------------------------ *)
(** ** Histories of calls *)

Module History.

Import Classifier Db Poller.

(** A sequence of calls to the gate, each with the clock reading the
    database takes for it, run from a given database. *)
Fixpoint run_saves (calls : list (save_args * Z)) (db : database)
  : database :=
  match calls with
  | [] => db
  | (a, now) :: calls' => run_saves calls' (snd (save_movie_update a now db))
  end.

(** What a call does to the database: the insert when the values can be
    bound, nothing otherwise. *)
Definition save_effect (v : values) (now : Z) (db : database) : database :=
  if bindable v then insert_or_ignore v now db else db.

(** The arguments of a call can be bound. *)
Definition storable (a : save_args) : bool := bindable (bound_values a).

(** Two calls name the same (platform, content_id), compared as the
    table keeps them. *)
Definition same_key (a b : save_args) : bool :=
  String.eqb (a_platform a) (a_platform b)
  && String.eqb (text_of (a_content_id a)) (text_of (a_content_id b)).

(** The uniqueness constraint, counted. *)
Definition at_most_one (db : database) : Prop :=
  forall p c,
    (List.length (filter (has_key p c) (movie_updates db)) <= 1)%nat.

(** The record stored under a key, if any. *)
Definition stored (p c : string) (db : database) : option row :=
  find (has_key p c) (movie_updates db).

(** The arguments the four loops that use [extract_movie_info] hand to
    the gate, each with the text it classifies. *)
Inductive base_path_call : save_args -> Prop :=
| from_twitter (acc : account) (t : tweet) :
    base_path_call (twitter_args acc t (extract_movie_info (tw_text t)))
| from_instagram (acc : account) (p : post) :
    base_path_call
      (instagram_args acc p (extract_movie_info (get (ig_caption p) "")))
| from_youtube (v : video) :
    base_path_call
      (youtube_args v
         (extract_movie_info (yt_title v ++ " " ++ yt_description v)))
| from_news (source : string) (a : article) :
    base_path_call (news_args source a (extract_movie_info (news_text a))).

(** The test of the recency check of [monitor_twitter], negated: the
    tweets the loop goes on with. *)
Definition recent (kt : tick * tweet) : bool :=
  negb (tw_created_at (snd kt) <? t_now (fst kt) - hours 24)%Z.

Definition initial_world : world := mk_world empty_database [].

(** Sample data for the closed statements below. *)
Definition geetha_arts : account :=
  mk_account "Geetha Arts" "GeethaArts" "telugu".

Definition first_payload : save_args :=
  mk_save_args "twitter" "Geetha Arts" "1001" "Tweet by Geetha Arts"
    "Pushpa 2 trailer tomorrow" "https://twitter.com/GeethaArts/status/1001"
    (mk_kwargs (Some "telugu") (Some "") (Some "") None None
               (Some "trailer") (Some 12%Z)).

Definition second_payload : save_args :=
  mk_save_args "twitter" "Geetha Arts" "1001" "Tweet by Geetha Arts"
    "Pushpa 2 trailer is out" "https://twitter.com/GeethaArts/status/1001"
    (mk_kwargs (Some "telugu") (Some "") (Some "") None None
               (Some "trailer") (Some 9000%Z)).


Definition quiet_trailer_tweet : tweet :=
  mk_tweet 1001 "Pushpa 2 trailer tomorrow" 0 (Some 0%Z).

Definition day_old_tweet (now : Z) : tweet :=
  mk_tweet 1002 "Pushpa 2 teaser" (now - hours 25) (Some 700%Z).

Definition youtube_telugu_page_2 : Api.request_args :=
  Api.mk_request_args (Some "youtube") (Some "telugu") None
                      (Some 2%Z) (Some 10%Z).

Definition video_row (rowid created : Z) (lang : string) : row :=
  mk_row rowid "youtube" "Mythri Movie Makers" (str_of_Z rowid) "Teaser"
         "" "" lang "" "" "" "" "teaser" 0 created false.

Definition twelve_videos : database :=
  mk_database
    (map (fun n => video_row (Z.of_nat n) (Z.of_nat (n / 2)) "telugu")
         (seq 1 12)
     ++ [video_row 13 3 "tamil"])
    13.

End History.

(* ------------------------------------------------------------------ *)
(** ** Keyword tables without their shadowed entries *)

Module Shorter.

Import Classifier.

(** The update-type sets without [official trailer] and [character
    poster], each of which contains a keyword of its own set. *)
Definition update_type_sets : list (list string * string) :=
  [ (["trailer"], "trailer");
    (teaser_words, "teaser");
    (["poster"; "first look"], "poster");
    (announcement_words, "announcement");
    (box_office_words, "box_office");
    (review_words, "review") ].

(** The language sets without [tamilnadu]. *)
Definition language_sets : list (list string * string) :=
  [ (telugu_words, "telugu");
    (["tamil"; "kollywood"], "tamil");
    (hindi_words, "hindi");
    (malayalam_words, "malayalam");
    (kannada_words, "kannada") ].

(** The actor table without [jr ntr], which contains the alias [ntr] of
    the same actor. *)
Definition telugu_actors : list (string * string) :=
  filter (fun e => negb (String.eqb (fst e) "jr ntr")) Classifier.telugu_actors.

End Shorter.

(* ------------------------------------------------------------------ *)
(** ** Shapes of tables and batches *)

Module Shape.

Import Classifier Db Poller History.

(** The shape a table made by saves alone has: rowids grow in table
    order and lie between 1 and the counter. *)
Definition rowids_in_order (db : database) : Prop :=
  (0 <= movie_updates_seq db)%Z
  /\ StronglySorted Z.lt (map id (movie_updates db))
  /\ Forall (fun r => (1 <= id r <= movie_updates_seq db)%Z)
            (movie_updates db).

(** The calls of a history that reach the table: those whose values can
    be bound. *)
Definition bound_calls (calls : list (save_args * Z)) : list (save_args * Z) :=
  filter (fun call => storable (fst call)) calls.


(** A third payload, under another key than [first_payload]. *)
Definition third_payload : save_args :=
  mk_save_args "youtube" "Mythri Movie Makers" "dQw4" "Teaser" ""
    "https://www.youtube.com/watch?v=dQw4"
    (mk_kwargs (Some "telugu") (Some "") None None None
               (Some "teaser") None).

(** The call to the gate that the twitter loop makes for a tweet, with the
    database clock of its iteration. *)
Definition twitter_call (acc : account) (kt : tick * tweet) : save_args * Z :=
  (twitter_args acc (snd kt) (extract_movie_info (tw_text (snd kt))),
   t_stamp (fst kt)).

(** The calls the twitter loop makes for a tweet. *)
Definition twitter_events (acc : account) (kt : tick * tweet) : list event :=
  [Classified (tw_text (snd kt)); Saved (fst (twitter_call acc kt))].

End Shape.

(* ------------------------------------------------------------------ *)
(** ** The search accessor [/api/search] *)

Module Search.

Import Db.

(** Case folding of SQLite's [LIKE]: the 26 ASCII capitals only. *)
Definition fold_char (c : ascii) : ascii :=
  let n := N_of_ascii c in
  if ((65 <=? n) && (n <=? 90))%N then ascii_of_N (n + 32) else c.

Fixpoint fold (s : string) : string :=
  match s with
  | EmptyString => EmptyString
  | String c s' => String (fold_char c) (fold s')
  end.





End Search.

(* ------------------------------------------------------------------ *)
(** ** Pages of [/api/updates] *)

Module Paging.

Import Db Api.

(** The request with other values of [page] and [per_page]. *)
Definition with_page (args : request_args) (page per_page : Z)
  : request_args :=
  {| q_platform := q_platform args;
     q_language := q_language args;
     q_update_type := q_update_type args;
     q_page := Some page;
     q_per_page := Some per_page |}.

(** Pages 1 to [k], one after the other. *)
Definition pages (args : request_args) (per_page : Z) (k : nat)
                 (db : database) : list row :=
  flat_map (fun p => updates (get_updates (with_page args (Z.of_nat p) per_page) db))
           (seq 1 k).

(** The request with its empty filters left out. *)
Definition drop_empty (args : request_args) : request_args :=
  let keep v := match v with
                | Some x => if truthy x then Some x else None
                | None => None
                end in
  {| q_platform := keep (q_platform args);
     q_language := keep (q_language args);
     q_update_type := keep (q_update_type args);
     q_page := q_page args;
     q_per_page := q_per_page args |}.

(** Everything the filters select, newest first: what a negative
    [per_page] asks for. *)
Definition everything (args : request_args) (db : database) : list row :=
  updates (get_updates (with_page args 1 (-1)) db).

End Paging.

(* ------------------------------------------------------------------ *)
(** ** The [social_accounts] table *)

Module Accounts.

(** The dataclass [SocialAccount] (app.py 37-45). *)
Record social_account : Type := SocialAccount {
  name : string;
  platform : string;
  username : string;
  account_type : string;
  language : string;
  is_active : bool
}.

(** One row of [social_accounts] (app.py 141-154). *)
Record account_row : Type := mk_account_row {
  r_id : Z;
  r_name : string;
  r_platform : string;
  r_username : string;
  r_account_type : string;
  r_language : string;
  r_is_active : bool;
  r_last_checked : option Z;
  r_created_at : Z
}.

(** The table in rowid order, and its [AUTOINCREMENT] counter. *)
Record registry : Type := mk_registry {
  social_accounts : list account_row;
  social_accounts_seq : Z
}.

Definition empty_registry : registry := mk_registry [] 0.

(** [UNIQUE(platform, username)] *)
Definition has_key (p u : string) (r : account_row) : bool :=
  String.eqb (r_platform r) p && String.eqb (r_username r) u.

Definition key_present (p u : string) (reg : registry) : bool :=
  existsb (has_key p u) (social_accounts reg).

(** The list of [_populate_default_accounts] (app.py 185-225). *)
Definition default_accounts : list social_account :=
  [
    SocialAccount "Geetha Arts" "twitter" "GeethaArts" "production_house" "telugu" true;
    SocialAccount "Geetha Arts" "instagram" "geethaarts" "production_house" "telugu" true;
    SocialAccount "Mythri Movie Makers" "twitter" "MythriOfficial" "production_house" "telugu" true;
    SocialAccount "Mythri Movie Makers" "instagram" "mythrimoviemakers" "production_house" "telugu" true;
    SocialAccount "People Media Factory" "twitter" "peoplemediafcy" "production_house" "telugu" true;
    SocialAccount "People Media Factory" "instagram" "peoplemediafactory" "production_house" "telugu" true;
    SocialAccount "Sri Venkateswara Creations" "twitter" "SVC_official" "production_house" "telugu" true;
    SocialAccount "Vyjayanthi Movies" "twitter" "VyjayanthiFilms" "production_house" "telugu" true;
    SocialAccount "Vyjayanthi Movies" "instagram" "vyjayanthimovies" "production_house" "telugu" true;
    SocialAccount "Allu Arjun" "twitter" "alluarjun" "actor" "telugu" true;
    SocialAccount "Allu Arjun" "instagram" "alluarjunonline" "actor" "telugu" true;
    SocialAccount "Prabhas" "instagram" "actorprabhas" "actor" "telugu" true;
    SocialAccount "Mahesh Babu" "twitter" "urstrulyMahesh" "actor" "telugu" true;
    SocialAccount "Mahesh Babu" "instagram" "urstrulymahesh" "actor" "telugu" true;
    SocialAccount "Jr. NTR" "twitter" "tarak9999" "actor" "telugu" true;
    SocialAccount "Jr. NTR" "instagram" "jrntr" "actor" "telugu" true;
    SocialAccount "Ram Charan" "twitter" "AlwaysRamCharan" "actor" "telugu" true;
    SocialAccount "Ram Charan" "instagram" "alwaysramcharan" "actor" "telugu" true;
    SocialAccount "Chiranjeevi" "twitter" "KChiruTweets" "actor" "telugu" true;
    SocialAccount "Chiranjeevi" "instagram" "chiranjeevikonidela" "actor" "telugu" true;
    SocialAccount "Rashmika Mandanna" "twitter" "iamRashmika" "actor" "multi" true;
    SocialAccount "Rashmika Mandanna" "instagram" "rashmika_mandanna" "actor" "multi" true;
    SocialAccount "S.S. Rajamouli" "twitter" "ssrajamouli" "director" "telugu" true;
    SocialAccount "S.S. Rajamouli" "instagram" "ssrajamouli" "director" "telugu" true;
    SocialAccount "Puri Jagannadh" "twitter" "purijagan" "director" "telugu" true;
    SocialAccount "Puri Jagannadh" "instagram" "purijagannadh" "director" "telugu" true;
    SocialAccount "Telugu Film Nagar" "twitter" "telugufilmnagar" "news_portal" "telugu" true;
    SocialAccount "Telugu Film Nagar" "instagram" "telugufilmnagar" "news_portal" "telugu" true;
    SocialAccount "Andhra Box Office" "twitter" "AndhraBoxOffice" "news_portal" "telugu" true;
    SocialAccount "T2BLive" "twitter" "T2BLive" "news_portal" "telugu" true;
    SocialAccount "Gulte" "twitter" "gulteofficial" "news_portal" "telugu" true;
    SocialAccount "123Telugu" "twitter" "123telugu" "news_portal" "telugu" true
  ].

(** The row an insert of five or six columns makes; [is_active] falls
    back to [TRUE], [last_checked] to [NULL], [created_at] to the clock. *)
Definition new_account_row (rowid : Z) (a : social_account) (active : bool)
                           (now : Z) : account_row :=
  {| r_id := rowid;
     r_name := name a;
     r_platform := platform a;
     r_username := username a;
     r_account_type := account_type a;
     r_language := language a;
     r_is_active := active;
     r_last_checked := None;
     r_created_at := now |}.

(** [INSERT OR IGNORE INTO social_accounts (name, platform, username,
    account_type, language) VALUES (...)]; the [AUTOINCREMENT] counter is
    advanced also when the row is skipped. *)
Definition insert_or_ignore (a : social_account) (now : Z) (reg : registry)
  : registry :=
  let rowid := (social_accounts_seq reg + 1)%Z in
  if key_present (platform a) (username a) reg then
    {| social_accounts := social_accounts reg;
       social_accounts_seq := rowid |}
  else
    {| social_accounts := social_accounts reg ++ [new_account_row rowid a true now];
       social_accounts_seq := rowid |}.

(** [_populate_default_accounts]: one insert per entry, then a commit. *)
Definition populate_default_accounts (now : Z) (reg : registry) : registry :=
  fold_left (fun reg' a => insert_or_ignore a now reg') default_accounts reg.

(** [INSERT OR REPLACE INTO social_accounts (..., is_active) VALUES (...,
    True)] of [add_account] (app.py 699-714): the row that holds the key
    is deleted, the new row gets the next rowid. *)
Definition add_account (a : social_account) (now : Z) (reg : registry)
  : registry :=
  let rowid := (social_accounts_seq reg + 1)%Z in
  {| social_accounts :=
       filter (fun r => negb (has_key (platform a) (username a) r))
              (social_accounts reg)
       ++ [new_account_row rowid a true now];
     social_accounts_seq := rowid |}.

(** [UPDATE social_accounts SET is_active = NOT is_active WHERE id = ?]
    of [toggle_account] (app.py 800-812) *)
Definition toggle_row (account_id : Z) (r : account_row) : account_row :=
  if (r_id r =? account_id)%Z then
    {| r_id := r_id r;
       r_name := r_name r;
       r_platform := r_platform r;
       r_username := r_username r;
       r_account_type := r_account_type r;
       r_language := r_language r;
       r_is_active := negb (r_is_active r);
       r_last_checked := r_last_checked r;
       r_created_at := r_created_at r |}
  else r.

Definition toggle_account (account_id : Z) (reg : registry) : registry :=
  {| social_accounts := map (toggle_row account_id) (social_accounts reg);
     social_accounts_seq := social_accounts_seq reg |}.

(** [DELETE FROM social_accounts WHERE id = ?] of [delete_account]
    (app.py 814-822) *)
Definition delete_account (account_id : Z) (reg : registry) : registry :=
  {| social_accounts :=
       filter (fun r => negb (r_id r =? account_id)%Z) (social_accounts reg);
     social_accounts_seq := social_accounts_seq reg |}.

(** Comparison of two rows on a list of columns, the first that differs
    deciding; strings compare by code point, as the [BINARY] collation
    does. *)
Fixpoint compare_on (columns : list (account_row -> string))
                    (a b : account_row) : comparison :=
  match columns with
  | [] => Eq
  | col :: columns' =>
      match String.compare (col a) (col b) with
      | Eq => compare_on columns' a b
      | c => c
      end
  end.

Definition le_on (columns : list (account_row -> string))
                 (a b : account_row) : bool :=
  match compare_on columns a b with Gt => false | _ => true end.

(** [ORDER BY columns]; rows that agree on all columns stay in table
    order, which SQLite leaves open. *)
Fixpoint insert_on (columns : list (account_row -> string))
                   (r : account_row) (sorted : list account_row)
  : list account_row :=
  match sorted with
  | [] => [r]
  | x :: sorted' =>
      if le_on columns r x then r :: x :: sorted'
      else x :: insert_on columns r sorted'
  end.

Definition order_by (columns : list (account_row -> string))
                    (rows : list account_row) : list account_row :=
  fold_right (insert_on columns) [] rows.

(** [get_active_accounts] (app.py 237-253) *)
Definition get_active_accounts (platform : option string) (reg : registry)
  : list account_row :=
  if truthy (Db.get platform "") then
    order_by [r_account_type; r_name]
      (filter (fun r => r_is_active r
                        && String.eqb (r_platform r) (Db.get platform ""))
              (social_accounts reg))
  else
    order_by [r_platform; r_account_type; r_name]
      (filter r_is_active (social_accounts reg)).

(** The three keys of an account dict that the loops read. *)
Definition as_account (r : account_row) : Poller.account :=
  Poller.mk_account (r_name r) (r_username r) (r_language r).

(** The uniqueness constraint, counted. *)
Definition at_most_one (reg : registry) : Prop :=
  forall p u,
    (List.length (filter (has_key p u) (social_accounts reg)) <= 1)%nat.

(** Rows are well formed when keys and rowids are unique and no rowid is
    ahead of the counter. *)
Definition well_formed (reg : registry) : Prop :=
  at_most_one reg
  /\ NoDup (map r_id (social_accounts reg))
  /\ Forall (fun r => (r_id r <= social_accounts_seq reg)%Z)
            (social_accounts reg).

(** A small table for the closed statements below. *)
Definition two_accounts : registry :=
  add_account (SocialAccount "Prabhas" "instagram" "actorprabhas" "actor"
                 "telugu" true) 2
    (add_account (SocialAccount "Geetha Arts" "instagram" "geethaarts"
                    "production_house" "telugu" true) 1 empty_registry).

(** The operations of the admin surface and of start-up. *)
Inductive operation : Type :=
| Populate (now : Z)
| Add (a : social_account) (now : Z)
| Toggle (account_id : Z)
| Delete (account_id : Z).

Definition apply_operation (op : operation) (reg : registry) : registry :=
  match op with
  | Populate now => populate_default_accounts now reg
  | Add a now => add_account a now reg
  | Toggle account_id => toggle_account account_id reg
  | Delete account_id => delete_account account_id reg
  end.

Definition run_operations (ops : list operation) (reg : registry) : registry :=
  fold_left (fun reg' op => apply_operation op reg') ops reg.

End Accounts.

(* ------------------------------------------------------------------ *)
(** ** The statistics accessor [/api/stats] *)

Module Stats.

Import Db.

(** [DATE(t)] of a timestamp: [created_at] is read as seconds since the
    epoch, UTC, and a date as the number of its day. *)
Definition date_of (stamp : Z) : Z := (stamp / 86400)%Z.

(** One more row for a group of a [GROUP BY ... COUNT] under way. *)
Fixpoint bump (key : string) (groups : list (string * Z)) : list (string * Z) :=
  match groups with
  | [] => [(key, 1%Z)]
  | (k, n) :: groups' =>
      if String.eqb k key then (k, (n + 1)%Z) :: groups'
      else (k, n) :: bump key groups'
  end.

(** [dict(conn.execute('SELECT col, COUNT( * ) ... GROUP BY col'))]: the
    groups with their counts.  The order of the groups, which a dict
    does not rely on, is the order of first occurrence here. *)
Definition group_count (col : row -> string) (rows : list row)
  : list (string * Z) :=
  fold_left (fun groups r => bump (col r) groups) rows [].

(** [d.get(key, 0)] on such a dict *)
Definition count_of (key : string) (groups : list (string * Z)) : Z :=
  match find (fun kn => String.eqb (fst kn) key) groups with
  | Some kn => snd kn
  | None => 0%Z
  end.

Definition count_where (test : row -> bool) (rows : list row) : Z :=
  Z.of_nat (List.length (filter test rows)).

Record stats : Type := mk_stats {
  total_updates : Z;
  today_updates : Z;
  week_updates : Z;
  by_platform : list (string * Z);
  by_language : list (string * Z);
  by_type : list (string * Z);
  active_accounts : Z
}.

(** [get_stats] (app.py 824-860); [now] is the clock ['now'] reads. *)
Definition get_stats (now : Z) (db : database) (reg : Accounts.registry)
  : stats :=
  let rows := movie_updates db in
  {| total_updates := count_where (fun _ => true) rows;
     today_updates :=
       count_where (fun r => (date_of (created_at r) =? date_of now)%Z) rows;
     week_updates :=
       count_where (fun r => (date_of now - 7 <=? date_of (created_at r))%Z)
                   rows;
     by_platform := group_count platform rows;
     by_language :=
       group_count language
         (filter (fun r => negb (String.eqb (language r) "")) rows);
     by_type :=
       group_count update_type
         (filter (fun r => negb (String.eqb (update_type r) "")) rows);
     active_accounts :=
       Z.of_nat (List.length (filter Accounts.r_is_active
                                     (Accounts.social_accounts reg))) |}.

Definition sum_counts (groups : list (string * Z)) : Z :=
  fold_right (fun kn acc => (snd kn + acc)%Z) 0%Z groups.

End Stats.

(* ------------------------------------------------------------------ *)
(** ** [config.py] *)

Module Settings.

(** The class attributes of [Config] the methods below read, after the
    environment was consulted; a credential that is not set is [None]. *)
Record config : Type := mk_config {
  SECRET_KEY : string;
  DEBUG : bool;
  TESTING : bool;
  DATABASE_URL : string;
  TWITTER_BEARER_TOKEN : option string;
  INSTAGRAM_ACCESS_TOKEN : option string;
  YOUTUBE_API_KEY : option string;
  TELEGRAM_BOT_TOKEN : option string;
  TELEGRAM_CHANNEL_ID : option string;
  TWITTER_INTERVAL : Z;
  INSTAGRAM_INTERVAL : Z;
  YOUTUBE_INTERVAL : Z;
  ADMIN_PASSWORD : string;
  LOG_LEVEL : string
}.

Definition default_secret_key : string :=
  "movie-monitor-secret-key-please-change-in-production".

(** Truth value of an optional string. *)
Definition set (v : option string) : bool :=
  match v with Some s => truthy s | None => false end.

(** [a and b] on optional strings *)
Definition and_then (a b : option string) : option string :=
  if set a then b else a.

(** [s.title()] on ASCII text: a letter that follows a letter is made
    small, any other letter capital. *)
Definition is_upper (c : ascii) : bool :=
  let n := N_of_ascii c in ((65 <=? n) && (n <=? 90))%N.
Definition is_lower (c : ascii) : bool :=
  let n := N_of_ascii c in ((97 <=? n) && (n <=? 122))%N.
Definition to_upper (c : ascii) : ascii :=
  if is_lower c then ascii_of_N (N_of_ascii c - 32) else c.
Definition to_lower (c : ascii) : ascii :=
  if is_upper c then ascii_of_N (N_of_ascii c + 32) else c.

Fixpoint title_from (after_letter : bool) (s : string) : string :=
  match s with
  | EmptyString => EmptyString
  | String c s' =>
      String (if after_letter then to_lower c else to_upper c)
             (title_from (is_upper c || is_lower c) s')
  end.

Definition title (s : string) : string := title_from false s.

Record validation : Type := mk_validation {
  valid : bool;
  warnings : list string;
  errors : list string;
  api_status : list (string * bool)
}.

(** The first loop of [validate_config]. *)
Fixpoint check_apis (api_configs : list (string * option string))
                    (v : validation) : validation :=
  match api_configs with
  | [] => v
  | (platform, config) :: api_configs' =>
      let v1 := mk_validation (valid v) (warnings v) (errors v)
                  (api_status v ++ [(platform, set config)]) in
      let v2 := if negb (set config)
                then mk_validation (valid v1)
                       (warnings v1
                        ++ [(title platform ++ " API not configured")%string])
                       (errors v1) (api_status v1)
                else v1 in
      check_apis api_configs' v2
  end.

(** The second loop. *)
Fixpoint check_intervals (intervals : list (string * Z)) (v : validation)
  : validation :=
  match intervals with
  | [] => v
  | (platform, interval) :: intervals' =>
      let v' :=
        if (interval <? 5)%Z then
          mk_validation false (warnings v)
            (errors v
             ++ [(title platform
                  ++ " interval too low (minimum 5 minutes)")%string])
            (api_status v)
        else if (interval >? 120)%Z then
          mk_validation (valid v)
            (warnings v
             ++ [(title platform ++ " interval very high ("
                  ++ Poller.str_of_Z interval ++ " minutes)")%string])
            (errors v) (api_status v)
        else v in
      check_intervals intervals' v'
  end.

(** [Config.validate_config] (config.py 84-131) *)
Definition validate_config (cls : config) : validation :=
  let v0 := mk_validation true [] [] [] in
  let v1 := check_apis
              [ ("twitter", TWITTER_BEARER_TOKEN cls);
                ("instagram", INSTAGRAM_ACCESS_TOKEN cls);
                ("youtube", YOUTUBE_API_KEY cls);
                ("telegram", and_then (TELEGRAM_BOT_TOKEN cls)
                                      (TELEGRAM_CHANNEL_ID cls)) ] v0 in
  let v2 := check_intervals
              [ ("twitter", TWITTER_INTERVAL cls);
                ("instagram", INSTAGRAM_INTERVAL cls);
                ("youtube", YOUTUBE_INTERVAL cls) ] v1 in
  let v3 := if String.eqb (ADMIN_PASSWORD cls) "admin123"
            then mk_validation (valid v2)
                   (warnings v2
                    ++ ["Using default admin password - please change for security"])
                   (errors v2) (api_status v2)
            else v2 in
  if String.eqb (SECRET_KEY cls) default_secret_key
  then mk_validation false (warnings v3)
         (errors v3 ++ ["Using default secret key - must change for production"])
         (api_status v3)
  else v3.

(** The subclasses, as overrides of the attributes of [Config]. *)
Definition DevelopmentConfig (base : config) : config :=
  {| SECRET_KEY := SECRET_KEY base;
     DEBUG := true;
     TESTING := false;
     DATABASE_URL := DATABASE_URL base;
     TWITTER_BEARER_TOKEN := TWITTER_BEARER_TOKEN base;
     INSTAGRAM_ACCESS_TOKEN := INSTAGRAM_ACCESS_TOKEN base;
     YOUTUBE_API_KEY := YOUTUBE_API_KEY base;
     TELEGRAM_BOT_TOKEN := TELEGRAM_BOT_TOKEN base;
     TELEGRAM_CHANNEL_ID := TELEGRAM_CHANNEL_ID base;
     TWITTER_INTERVAL := 5;
     INSTAGRAM_INTERVAL := 10;
     YOUTUBE_INTERVAL := 15;
     ADMIN_PASSWORD := ADMIN_PASSWORD base;
     LOG_LEVEL := "DEBUG" |}.

Definition TestingConfig (base : config) : config :=
  {| SECRET_KEY := SECRET_KEY base;
     DEBUG := true;
     TESTING := true;
     DATABASE_URL := "sqlite:///:memory:";
     TWITTER_BEARER_TOKEN := Some "test-token";
     INSTAGRAM_ACCESS_TOKEN := Some "test-token";
     YOUTUBE_API_KEY := Some "test-key";
     TELEGRAM_BOT_TOKEN := Some "test-token";
     TELEGRAM_CHANNEL_ID := Some "@test-channel";
     TWITTER_INTERVAL := TWITTER_INTERVAL base;
     INSTAGRAM_INTERVAL := INSTAGRAM_INTERVAL base;
     YOUTUBE_INTERVAL := YOUTUBE_INTERVAL base;
     ADMIN_PASSWORD := ADMIN_PASSWORD base;
     LOG_LEVEL := LOG_LEVEL base |}.

Definition ProductionConfig (base : config) : config :=
  {| SECRET_KEY := SECRET_KEY base;
     DEBUG := false;
     TESTING := false;
     DATABASE_URL := DATABASE_URL base;
     TWITTER_BEARER_TOKEN := TWITTER_BEARER_TOKEN base;
     INSTAGRAM_ACCESS_TOKEN := INSTAGRAM_ACCESS_TOKEN base;
     YOUTUBE_API_KEY := YOUTUBE_API_KEY base;
     TELEGRAM_BOT_TOKEN := TELEGRAM_BOT_TOKEN base;
     TELEGRAM_CHANNEL_ID := TELEGRAM_CHANNEL_ID base;
     TWITTER_INTERVAL := TWITTER_INTERVAL base;
     INSTAGRAM_INTERVAL := INSTAGRAM_INTERVAL base;
     YOUTUBE_INTERVAL := YOUTUBE_INTERVAL base;
     ADMIN_PASSWORD := ADMIN_PASSWORD base;
     LOG_LEVEL := "WARNING" |}.

(** [ConfigManager.get_config] (config.py 239-245); [flask_env] is the
    environment variable [FLASK_ENV]. *)
Definition get_config (base : config) (flask_env : option string)
                      (config_name : option string) : config :=
  let name := match config_name with
              | Some n => n
              | None => Db.get flask_env "default"
              end in
  if String.eqb name "development" then DevelopmentConfig base
  else if String.eqb name "testing" then TestingConfig base
  else if String.eqb name "production" then ProductionConfig base
  else base.

(** [s.split(sep)[0]]: what stands before the first [sep], all of [s]
    when there is none. *)
Fixpoint before_first (sep s : string) : string :=
  if startswith sep s then EmptyString
  else match s with
       | EmptyString => EmptyString
       | String c s' => String c (before_first sep s')
       end.

(** The [database_url] entry of [get_runtime_info] (config.py 268). *)
Definition shown_database_url (cls : config) : string :=
  (before_first "://" (DATABASE_URL cls) ++ "://...")%string.

(** An interval below the minimum, and the error entered for it. *)
Definition too_low (pi : string * Z) : bool := (snd pi <? 5)%Z.

Definition low_message (pi : string * Z) : string :=
  (title (fst pi) ++ " interval too low (minimum 5 minutes)")%string.

Definition intervals_of (cls : config) : list (string * Z) :=
  [("twitter", TWITTER_INTERVAL cls);
   ("instagram", INSTAGRAM_INTERVAL cls);
   ("youtube", YOUTUBE_INTERVAL cls)].

(** Two classes that differ in their credentials only. *)
Definition same_but_credentials (a b : config) : Prop :=
  SECRET_KEY a = SECRET_KEY b
  /\ TWITTER_INTERVAL a = TWITTER_INTERVAL b
  /\ INSTAGRAM_INTERVAL a = INSTAGRAM_INTERVAL b
  /\ YOUTUBE_INTERVAL a = YOUTUBE_INTERVAL b
  /\ ADMIN_PASSWORD a = ADMIN_PASSWORD b.

(** The class with the defaults of [config.py] and an empty environment. *)
Definition defaults : config :=
  {| SECRET_KEY := default_secret_key;
     DEBUG := false;
     TESTING := false;
     DATABASE_URL := "sqlite:///movie_updates.db";
     TWITTER_BEARER_TOKEN := None;
     INSTAGRAM_ACCESS_TOKEN := None;
     YOUTUBE_API_KEY := None;
     TELEGRAM_BOT_TOKEN := None;
     TELEGRAM_CHANNEL_ID := None;
     TWITTER_INTERVAL := 15;
     INSTAGRAM_INTERVAL := 20;
     YOUTUBE_INTERVAL := 30;
     ADMIN_PASSWORD := "admin123";
     LOG_LEVEL := "INFO" |}.

End Settings.

(* ================================================================== *)
(** * Properties *)

Import Classifier Db Poller History.

(* ------------------------------------------------------------------ *)
(** ** Strings *)

Section StringFacts.

Lemma mem_In (x : string) (l : list string) : mem x l = true <-> In x l.
Proof.
  unfold mem; rewrite existsb_exists; split.
  - intros [y [Hy Heq]]; apply String.eqb_eq in Heq; subst; assumption.
  - intros H; exists x; split; [assumption | apply String.eqb_refl].
Qed.

End StringFacts.

(* ------------------------------------------------------------------ *)
(** ** Classifier *)

Section ClassifierFacts.

(** The loop with [break] over a table stops at the first entry whose
    key occurs. *)
Lemma scan_table_find (table : list (string * string)) (text : string) :
  scan_table table text "" = Spec.first_entry table text.
Proof.
  unfold Spec.first_entry.
  induction table as [| [key name] table IH]; simpl.
  - reflexivity.
  - destruct (contains key text); [reflexivity | exact IH].
Qed.

(** What the scan returns, said with positions: either nothing occurs
    and the field stays as it was, or the table splits at an entry whose
    key occurs and before which no key occurs. *)
Lemma scan_table_split (table : list (string * string)) (text cur : string) :
  (Forall (fun e => contains (fst e) text = false) table
   /\ scan_table table text cur = cur)
  \/ (exists before key after,
        table = before ++ (key, scan_table table text cur) :: after
        /\ contains key text = true
        /\ Forall (fun e => contains (fst e) text = false) before).
Proof.
  induction table as [| [key name] table IH]; simpl.
  - left; split; [constructor | reflexivity].
  - destruct (contains key text) eqn:Hk.
    + right; exists [], key, table; repeat split; auto.
    + destruct IH as [[Hall Heq] | (before & k & after & Htab & Hin & Hbef)].
      * left; split; [constructor; [exact Hk | exact Hall] | exact Heq].
      * right; exists ((key, name) :: before), k, after.
        split; [simpl; f_equal; exact Htab |].
        split; [exact Hin | constructor; [exact Hk | exact Hbef]].
Qed.

Lemma enhanced_update_type_cascade (t : string) :
  enhanced_update_type t = Spec.cascade Spec.update_type_sets "news" t.
Proof.
  unfold enhanced_update_type, Spec.cascade, Spec.update_type_sets.
  cbn [find fst snd].
  repeat match goal with
         | |- context [any_in ?ws t] => destruct (any_in ws t); [reflexivity |]
         end.
  reflexivity.
Qed.




End ClassifierFacts.

(** C4. For every text the enhanced classifier's update type is the label
    of the first keyword set, in the order trailer, teaser, poster,
    announcement, box_office, review, that has a keyword occurring in the
    lowercased text, and [news] when no set has one; a text with a keyword
    of the trailer set and a keyword of the box-office set is a trailer. *)
Theorem update_type_priority_cascade :
  forall text : string,
    Classifier.update_type (enhanced_extract_movie_info text)
      = Spec.cascade Spec.update_type_sets "news" (lower text)
    /\ (any_in trailer_words (lower text) = true ->
        any_in box_office_words (lower text) = true ->
        Classifier.update_type (enhanced_extract_movie_info text) = "trailer").
Proof.
  intro text; split.
  - apply enhanced_update_type_cascade.
  - intros Htrailer _.
    cbn [Classifier.update_type enhanced_extract_movie_info].
    unfold enhanced_update_type; rewrite Htrailer; reflexivity.
Qed.

Lemma update_type_priority_cascade_witness :
  Classifier.update_type
    (enhanced_extract_movie_info "Box Office collection after the TRAILER")
  = "trailer".
Proof.
  apply (proj2 (update_type_priority_cascade
                  "Box Office collection after the TRAILER"));
    vm_compute; reflexivity.
Defined.



(** C6. For every text, actor, director and production house are each the
    canonical name of the first entry of their table, in table order,
    whose alias occurs in the lowercased text, and empty when no alias
    occurs; as [ntr] stands before [ram charan] in the actor table, a text
    with both never resolves to Ram Charan, and resolves to Jr. NTR when
    none of the three aliases listed ahead of them occurs. *)
Theorem entity_first_match :
  forall text : string,
    let i := enhanced_extract_movie_info text in
    Classifier.actor_name i = Spec.first_entry telugu_actors (lower text)
    /\ Classifier.director_name i = Spec.first_entry directors (lower text)
    /\ Classifier.production_house i
       = Spec.first_entry production_houses (lower text)
    /\ ((Forall (fun e => contains (fst e) (lower text) = false) telugu_actors
         /\ Classifier.actor_name i = "")
        \/ (exists before alias after,
              telugu_actors
                = before ++ (alias, Classifier.actor_name i) :: after
              /\ contains alias (lower text) = true
              /\ Forall (fun e => contains (fst e) (lower text) = false)
                        before))
    /\ (contains "ntr" (lower text) = true ->
        contains "ram charan" (lower text) = true ->
        Classifier.actor_name i <> "Ram Charan"
        /\ (any_in ["allu arjun"; "prabhas"; "mahesh babu"] (lower text)
              = false ->
            Classifier.actor_name i = "Jr. NTR")).
Proof.
  intro text; cbv zeta.
  cbn [Classifier.actor_name Classifier.director_name
       Classifier.production_house enhanced_extract_movie_info].
  split; [apply scan_table_find |].
  split; [apply scan_table_find |].
  split; [apply scan_table_find |].
  split; [apply scan_table_split |].
  intros Hntr _.
  unfold telugu_actors; cbn [scan_table any_in existsb].
  rewrite Hntr.
  destruct (contains "allu arjun" (lower text));
    [split; [discriminate | discriminate] |].
  destruct (contains "prabhas" (lower text));
    [split; [discriminate | discriminate] |].
  destruct (contains "mahesh babu" (lower text));
    [split; [discriminate | discriminate] |].
  destruct (contains "jr ntr" (lower text));
    split; try discriminate; reflexivity.
Qed.

Lemma entity_first_match_witness :
  Classifier.actor_name
    (enhanced_extract_movie_info "Ram Charan and NTR in one frame")
  = "Jr. NTR".
Proof.
  apply (proj2 (proj2 (proj2 (proj2 (proj2
           (entity_first_match "Ram Charan and NTR in one frame"))))
           eq_refl eq_refl));
    vm_compute; reflexivity.
Defined.

(** C7. Classifying the text [Pushpa 2 official trailer out now!
    #PushpaMovie telugu blockbuster] gives update type trailer, language
    telugu and movie name Pushpa; the name comes from the hashtag pattern,
    the first of the ordered patterns, whose only match it is. *)
Theorem pushpa_scenario :
  let text :=
    "Pushpa 2 official trailer out now! #PushpaMovie telugu blockbuster" in
  let i := enhanced_extract_movie_info text in
  Classifier.update_type i = "trailer"
  /\ Classifier.language i = "telugu"
  /\ Classifier.movie_name i = "Pushpa"
  /\ Re.findall hashtag_pattern text = ["Pushpa"]
  /\ hd_error movie_patterns = Some hashtag_pattern.
Proof. vm_compute. repeat split. Qed.

(* ------------------------------------------------------------------ *)
(** ** The persistence gate *)

Section GateFacts.

(** The whole effect of a call.  When the values can be bound the insert
    is committed, the attribute read raises and the handler answers
    [None]; when they cannot, binding raises, nothing is written and the
    handler answers [None] as well. *)
Lemma save_movie_update_eq (a : save_args) (now : Z) (db : database) :
  save_movie_update a now db
  = (Normal VNone, save_effect (bound_values a) now db).
Proof.
  unfold save_movie_update, save_effect, try_except, with_connection,
    execute_insert, bind.
  destruct (bindable (bound_values a)); reflexivity.
Qed.

Lemma find_none_existsb {A} (f : A -> bool) (l : list A) :
  existsb f l = false -> find f l = None.
Proof.
  induction l as [| x l IH]; simpl; [reflexivity |].
  destruct (f x); simpl; [discriminate | exact IH].
Qed.

Lemma filter_nil_existsb {A} (f : A -> bool) (l : list A) :
  existsb f l = false -> filter f l = [].
Proof.
  induction l as [| x l IH]; simpl; [reflexivity |].
  destruct (f x); simpl; [discriminate | exact IH].
Qed.

Lemma find_app_some {A} (f : A -> bool) (l l' : list A) (x : A) :
  find f l = Some x -> find f (l ++ l') = Some x.
Proof.
  induction l as [| y l IH]; simpl; [discriminate |].
  destruct (f y); [trivial | exact IH].
Qed.

Lemma find_app_none {A} (f : A -> bool) (l l' : list A) :
  find f l = None -> find f (l ++ l') = find f l'.
Proof.
  induction l as [| y l IH]; simpl; [reflexivity |].
  destruct (f y); [discriminate | exact IH].
Qed.

Lemma has_key_new_row (p c : string) (rowid : Z) (v : values) (now : Z) :
  has_key p c (new_row rowid v now)
  = String.eqb (v_platform v) p && String.eqb (text_of (v_content_id v)) c.
Proof. reflexivity. Qed.

(** An insert under a stored key leaves the rows alone and moves the
    counter on. *)
Lemma insert_present (v : values) (now : Z) (db : database) :
  key_present (v_platform v) (text_of (v_content_id v)) db = true ->
  insert_or_ignore v now db
  = {| movie_updates := movie_updates db;
       movie_updates_seq := movie_updates_seq db + 1 |}.
Proof. unfold insert_or_ignore; intros ->; reflexivity. Qed.

Lemma effect_present_rows (v : values) (now : Z) (db : database) :
  key_present (v_platform v) (text_of (v_content_id v)) db = true ->
  movie_updates (save_effect v now db) = movie_updates db.
Proof.
  intro Hk; unfold save_effect; destruct (bindable v); [| reflexivity].
  rewrite (insert_present v now db Hk); reflexivity.
Qed.

Lemma insert_keeps_at_most_one (v : values) (now : Z) (db : database) :
  at_most_one db -> at_most_one (insert_or_ignore v now db).
Proof.
  intros Hdb p c; unfold insert_or_ignore.
  destruct (key_present (v_platform v) (text_of (v_content_id v)) db) eqn:Hk;
    cbn [movie_updates]; [apply Hdb |].
  rewrite filter_app; cbn [filter].
  rewrite has_key_new_row.
  destruct (String.eqb (v_platform v) p
            && String.eqb (text_of (v_content_id v)) c) eqn:Hsame.
  - apply andb_true_iff in Hsame as [Hp Hc].
    apply String.eqb_eq in Hp, Hc; subst p c.
    unfold key_present in Hk.
    rewrite (filter_nil_existsb _ _ Hk); simpl; lia.
  - rewrite app_nil_r; apply Hdb.
Qed.

Lemma effect_keeps_at_most_one (v : values) (now : Z) (db : database) :
  at_most_one db -> at_most_one (save_effect v now db).
Proof.
  intro Hdb; unfold save_effect; destruct (bindable v);
    [apply insert_keeps_at_most_one |]; exact Hdb.
Qed.

Lemma insert_keeps_stored (v : values) (now : Z) (db : database)
      (p c : string) (r : row) :
  stored p c db = Some r -> stored p c (insert_or_ignore v now db) = Some r.
Proof.
  unfold stored, insert_or_ignore; intro Hr.
  destruct (key_present (v_platform v) (text_of (v_content_id v)) db);
    cbn [movie_updates]; [exact Hr | apply find_app_some; exact Hr].
Qed.

Lemma effect_keeps_stored (v : values) (now : Z) (db : database)
      (p c : string) (r : row) :
  stored p c db = Some r -> stored p c (save_effect v now db) = Some r.
Proof.
  intro Hr; unfold save_effect; destruct (bindable v);
    [apply insert_keeps_stored |]; exact Hr.
Qed.

(** How an insert changes the set of stored keys. *)
Lemma key_present_insert (v : values) (now : Z) (db : database) (p c : string) :
  key_present p c (insert_or_ignore v now db)
  = key_present p c db
    || (String.eqb (v_platform v) p
        && String.eqb (text_of (v_content_id v)) c).
Proof.
  unfold insert_or_ignore.
  destruct (key_present (v_platform v) (text_of (v_content_id v)) db) eqn:Hk.
  - unfold key_present at 1; cbn [movie_updates]; fold (key_present p c db).
    destruct (String.eqb (v_platform v) p
              && String.eqb (text_of (v_content_id v)) c) eqn:Hsame;
      [| rewrite orb_false_r; reflexivity].
    apply andb_true_iff in Hsame as [Hp Hc].
    apply String.eqb_eq in Hp, Hc; subst p c; rewrite Hk; reflexivity.
  - unfold key_present; cbn [movie_updates].
    rewrite existsb_app; cbn [existsb]; rewrite orb_false_r, has_key_new_row.
    reflexivity.
Qed.

Lemma key_present_effect (v : values) (now : Z) (db : database) (p c : string) :
  key_present p c (save_effect v now db)
  = key_present p c db
    || (bindable v
        && (String.eqb (v_platform v) p
            && String.eqb (text_of (v_content_id v)) c)).
Proof.
  unfold save_effect; destruct (bindable v);
    [apply key_present_insert | rewrite orb_false_r; reflexivity].
Qed.

Lemma insert_fresh_key (v : values) (now : Z) (db : database) :
  key_present (v_platform v) (text_of (v_content_id v)) db = false ->
  stored (v_platform v) (text_of (v_content_id v)) (insert_or_ignore v now db)
  = Some (new_row (movie_updates_seq db + 1) v now).
Proof.
  unfold insert_or_ignore, stored; intro Hk; rewrite Hk.
  cbn [movie_updates].
  rewrite find_app_none by (apply find_none_existsb; exact Hk).
  cbn [find]; rewrite has_key_new_row, !String.eqb_refl; reflexivity.
Qed.

Lemma run_saves_at_most_one (calls : list (save_args * Z)) (db : database) :
  at_most_one db -> at_most_one (run_saves calls db).
Proof.
  revert db; induction calls as [| [a now] calls IH]; intros db Hdb;
    [exact Hdb |].
  cbn [run_saves]; apply IH.
  rewrite save_movie_update_eq; apply effect_keeps_at_most_one; exact Hdb.
Qed.

Lemma run_saves_keeps_stored (calls : list (save_args * Z)) (db : database)
      (p c : string) (r : row) :
  stored p c db = Some r -> stored p c (run_saves calls db) = Some r.
Proof.
  revert db; induction calls as [| [a now] calls IH]; intros db Hr;
    [exact Hr |].
  cbn [run_saves]; apply IH.
  rewrite save_movie_update_eq; apply effect_keeps_stored; exact Hr.
Qed.

(** The calls that can put a row under the key of [a]: same key, and
    values that can be bound. *)
Lemma run_saves_other_keys (calls : list (save_args * Z)) (db : database)
      (a : save_args) :
  Forall (fun c => same_key (fst c) a && storable (fst c) = false) calls ->
  key_present (a_platform a) (text_of (a_content_id a)) db = false ->
  key_present (a_platform a) (text_of (a_content_id a)) (run_saves calls db)
  = false.
Proof.
  revert db; induction calls as [| [b now] calls IH]; intros db Hall Hk;
    [exact Hk |].
  inversion Hall as [| ? ? Hb Hrest]; subst.
  cbn [run_saves]; apply IH; [exact Hrest |].
  rewrite save_movie_update_eq; cbn [snd]; rewrite key_present_effect, Hk.
  cbn [fst] in Hb; unfold same_key, storable in Hb.
  cbn [bound_values v_platform v_content_id orb].
  rewrite andb_comm; exact Hb.
Qed.

Lemma run_saves_app (xs ys : list (save_args * Z)) (db : database) :
  run_saves (xs ++ ys) db = run_saves ys (run_saves xs db).
Proof.
  revert db; induction xs as [| [a now] xs IH]; intro db; [reflexivity |].
  cbn [run_saves app]; apply IH.
Qed.

End GateFacts.

(** C1. Whatever sequence of saves has run since the table was created:
    no (platform, content_id) pair has more than one record; a further
    save returns without raising; a save whose key is stored leaves the
    records of the table as they are; and the record stored under a key
    is the one made from the payload of the first save under that key
    that the database took in, whatever was saved afterwards.  (The
    database takes a save in when its integers fit 64 bits; any other
    save is answered like the rest and leaves the file untouched.) *)
Theorem one_record_per_key :
  forall calls : list (save_args * Z),
    let db := run_saves calls empty_database in
    (forall p c,
        (List.length (filter (has_key p c) (movie_updates db)) <= 1)%nat)
    /\ (forall a now, exists v, fst (save_movie_update a now db) = Normal v)
    /\ (forall a now,
          key_present (a_platform a) (text_of (a_content_id a)) db = true ->
          movie_updates (snd (save_movie_update a now db)) = movie_updates db)
    /\ (forall before a now after,
          calls = before ++ (a, now) :: after ->
          storable a = true ->
          Forall (fun c => same_key (fst c) a && storable (fst c) = false)
                 before ->
          exists rowid,
            stored (a_platform a) (text_of (a_content_id a)) db
            = Some (new_row rowid (bound_values a) now))
    /\ (forall a now,
          storable a = false -> snd (save_movie_update a now db) = db).
Proof.
  intro calls; cbv zeta.
  split; [| split; [| split; [| split]]].
  - apply (run_saves_at_most_one calls empty_database).
    intros p c; simpl; lia.
  - intros a now; exists VNone; rewrite save_movie_update_eq; reflexivity.
  - intros a now Hk; rewrite save_movie_update_eq; cbn [snd].
    apply (effect_present_rows (bound_values a)); exact Hk.
  - intros before a now after -> Hok Hbefore.
    rewrite run_saves_app; cbn [run_saves].
    rewrite save_movie_update_eq; cbn [snd].
    eexists; apply run_saves_keeps_stored.
    unfold save_effect; unfold storable in Hok; rewrite Hok.
    apply (insert_fresh_key (bound_values a)).
    apply (run_saves_other_keys before empty_database a Hbefore); reflexivity.
  - intros a now Hno; rewrite save_movie_update_eq; cbn [snd].
    unfold save_effect; unfold storable in Hno; rewrite Hno; reflexivity.
Qed.

Lemma one_record_per_key_witness :
  exists rowid,
    stored "twitter" "1001"
      (run_saves [(first_payload, 10%Z); (second_payload, 20%Z)] empty_database)
    = Some (new_row rowid (bound_values first_payload) 10).
Proof.
  exact (proj1 (proj2 (proj2 (proj2
           (one_record_per_key [(first_payload, 10%Z); (second_payload, 20%Z)]))))
           [] first_payload 10%Z [(second_payload, 20%Z)]
           eq_refl eq_refl (Forall_nil _)).
Defined.

(** C2. What the gate answers.  Every call returns [None], also the call
    that inserts: saving [first_payload] into the empty table stores the
    record under rowid 1 and still answers [None], not 1. *)
Theorem save_movie_update_answers_None :
  (forall a now db, fst (save_movie_update a now db) = Normal VNone)
  /\ key_present "twitter" "1001" empty_database = false
  /\ save_movie_update first_payload 10 empty_database
     = (Normal VNone,
        {| movie_updates := [new_row 1 (bound_values first_payload) 10];
           movie_updates_seq := 1 |}).
Proof.
  split; [| split; reflexivity].
  intros a now db; rewrite save_movie_update_eq; reflexivity.
Qed.

Section PollerFacts.

Lemma in_insert_or_ignore (v : values) (now : Z) (db : database) (r : row) :
  In r (movie_updates (insert_or_ignore v now db)) ->
  In r (movie_updates db) \/ r = new_row (movie_updates_seq db + 1) v now.
Proof.
  unfold insert_or_ignore.
  destruct (key_present (v_platform v) (text_of (v_content_id v)) db);
    [left; assumption |].
  cbn [movie_updates]; intro Hin; apply in_app_or in Hin.
  destruct Hin as [Hin | [Heq | []]]; [left; exact Hin | right; auto].
Qed.

Lemma in_save_effect (v : values) (now : Z) (db : database) (r : row) :
  In r (movie_updates (save_effect v now db)) ->
  In r (movie_updates db) \/ r = new_row (movie_updates_seq db + 1) v now.
Proof.
  unfold save_effect; destruct (bindable v);
    [apply in_insert_or_ignore | left; assumption].
Qed.

Lemma base_path_names (a : save_args) :
  base_path_call a ->
  v_movie_name (bound_values a) = "" /\ v_actor_name (bound_values a) = "".
Proof. intros [acc t | acc p | v | source art]; split; reflexivity. Qed.

(** A call to the gate from a loop: the call is recorded, the table is
    what the gate leaves, and the loop gets [None]. *)
Lemma call_save_eq (a : save_args) (stamp : Z) (w : world) :
  call_save a stamp w
  = (Normal VNone,
     {| store := save_effect (bound_values a) stamp (store w);
        trace := trace w ++ [Saved a] |}).
Proof.
  unfold call_save, bind, emit, modify; cbn [store trace].
  rewrite save_movie_update_eq; reflexivity.
Qed.

Lemma process_tweet_stale (acc : account) (k : tick) (t : tweet) (w : world) :
  (tw_created_at t < t_now k - hours 24)%Z ->
  process_tweet acc k t w = (Normal tt, w).
Proof.
  intro Hold; unfold process_tweet.
  apply Z.ltb_lt in Hold; rewrite Hold; reflexivity.
Qed.

Lemma process_tweet_recent (acc : account) (k : tick) (t : tweet) (w : world) :
  recent (k, t) = true ->
  process_tweet acc k t w
  = (Normal tt,
     {| store := save_effect
                   (bound_values
                      (twitter_args acc t (extract_movie_info (tw_text t))))
                   (t_stamp k) (store w);
        trace := (trace w ++ [Classified (tw_text t)])
                 ++ [Saved (twitter_args acc t
                               (extract_movie_info (tw_text t)))] |}).
Proof.
  unfold recent, process_tweet; cbn [fst snd]; intro Hrec.
  apply negb_true_iff in Hrec; rewrite Hrec.
  unfold bind at 1; unfold call_extract, bind at 1, emit, modify, ret.
  unfold bind; rewrite call_save_eq; reflexivity.
Qed.

(** The body of the enhanced instagram loop, case by case. *)
Lemma process_post_enhanced_eq (acc : account) (k : tick) (p : post)
      (w : world) :
  process_post_enhanced acc k p w
  = (Normal tt,
     if (ig_timestamp p <? t_now k - hours 12)%Z
        || negb (truthy (get (ig_caption p) ""))
     then w
     else
       let a := instagram_enhanced_args acc p
                  (enhanced_extract_movie_info (get (ig_caption p) "")) in
       {| store := save_effect (bound_values a) (t_stamp k) (store w);
          trace := (trace w ++ [Classified (get (ig_caption p) "")])
                   ++ [Saved a] |}).
Proof.
  unfold process_post_enhanced.
  destruct (ig_timestamp p <? t_now k - hours 12)%Z; [reflexivity |].
  destruct (truthy (get (ig_caption p) "")); [| reflexivity].
  cbn [negb orb]; cbv zeta.
  unfold bind at 1; unfold call_enhanced_extract, bind at 1, emit, modify, ret.
  unfold bind; rewrite call_save_eq; reflexivity.
Qed.

Lemma notifications_app (xs ys : list event) :
  notifications (xs ++ ys) = notifications xs ++ notifications ys.
Proof.
  induction xs as [| [text | a | n] xs IH]; cbn [notifications app];
    [reflexivity | exact IH | exact IH | rewrite IH; reflexivity].
Qed.

End PollerFacts.

(** C8. [extract_movie_info] returns an empty movie name and an empty
    actor name for every text, and every record that a save from the
    twitter, instagram, youtube or news loop built on it adds to the table
    has both columns empty. *)
Theorem base_classifier_leaves_names_empty :
  (forall text : string,
      b_movie_name (extract_movie_info text) = ""
      /\ b_actor_name (extract_movie_info text) = "")
  /\ (forall (a : save_args) (now : Z) (db : database) (r : row),
        base_path_call a ->
        In r (movie_updates (snd (save_movie_update a now db))) ->
        ~ In r (movie_updates db) ->
        Db.movie_name r = "" /\ Db.actor_name r = "").
Proof.
  split.
  - intro text; split; reflexivity.
  - intros a now db r Hpath Hin Hnew.
    rewrite save_movie_update_eq in Hin; cbn [snd] in Hin.
    apply in_save_effect in Hin as [Hold | ->]; [contradiction |].
    cbn [Db.movie_name Db.actor_name new_row].
    apply base_path_names; exact Hpath.
Qed.

Lemma base_classifier_leaves_names_empty_witness :
  Db.movie_name
    (new_row 1
       (bound_values
          (twitter_args geetha_arts quiet_trailer_tweet
             (extract_movie_info (tw_text quiet_trailer_tweet)))) 5) = ""
  /\ Db.actor_name
       (new_row 1
          (bound_values
             (twitter_args geetha_arts quiet_trailer_tweet
                (extract_movie_info (tw_text quiet_trailer_tweet)))) 5) = "".
Proof.
  apply (proj2 base_classifier_leaves_names_empty
           (twitter_args geetha_arts quiet_trailer_tweet
              (extract_movie_info (tw_text quiet_trailer_tweet)))
           5%Z empty_database).
  - apply (from_twitter geetha_arts quiet_trailer_tweet).
  - left; reflexivity.
  - simpl; intros [].
Defined.

(** C9. A tweet whose timestamp lies more than 24 hours before the clock
    reading of its iteration, one 25 hours old for instance, leaves the
    world as it was: no call to the classifier, no call to the gate, no
    change to the table.  A whole batch runs as the batch without its
    stale tweets; a tweet inside the window is classified and saved. *)
Theorem stale_tweets_are_skipped :
  forall acc : account,
    (forall k t w,
        (tw_created_at t < t_now k - hours 24)%Z ->
        process_tweet acc k t w = (Normal tt, w))
    /\ (forall k t w,
          tw_created_at t = (t_now k - hours 25)%Z ->
          process_tweet acc k t w = (Normal tt, w))
    /\ (forall batch w,
          process_tweets acc batch w
          = process_tweets acc (filter recent batch) w)
    /\ (forall k t w,
          recent (k, t) = true ->
          trace (snd (process_tweet acc k t w))
          = trace w ++ [Classified (tw_text t);
                        Saved (twitter_args acc t
                                 (extract_movie_info (tw_text t)))]).
Proof.
  intro acc; repeat split.
  - intros k t w; apply process_tweet_stale.
  - intros k t w Heq; apply process_tweet_stale.
    rewrite Heq; unfold hours; lia.
  - intro batch; induction batch as [| [k t] batch IH]; intro w;
      [reflexivity |].
    cbn [filter]; destruct (recent (k, t)) eqn:Hrec.
    + unfold process_tweets in *; cbn [for_each fst snd]; unfold bind.
      destruct (process_tweet acc k t w) as [[[] | e] w']; [apply IH | reflexivity].
    + unfold recent in Hrec; cbn [fst snd] in Hrec.
      apply negb_false_iff, Z.ltb_lt in Hrec.
      unfold process_tweets in *; cbn [for_each fst snd]; unfold bind.
      rewrite (process_tweet_stale acc k t w Hrec); apply IH.
  - intros k t w Hrec.
    rewrite (process_tweet_recent acc k t w Hrec); cbn [snd trace].
    rewrite <- app_assoc; reflexivity.
Qed.

Lemma stale_tweets_are_skipped_witness :
  process_tweet geetha_arts (mk_tick (hours 100) 360000)
    (day_old_tweet (hours 100)) initial_world
  = (Normal tt, initial_world).
Proof.
  apply (proj1 (stale_tweets_are_skipped geetha_arts)).
  vm_compute; reflexivity.
Defined.

(* ------------------------------------------------------------------ *)
(** ** The notification rule *)

(** C3. The notification rule against the loops.  The tweet
    [quiet_trailer_tweet] is new to the table, is classified as a trailer
    and carries no likes: section 4.3 asks for a notification.  The loop
    stores the record and sends nothing, because the gate has answered
    [None] and the guard of the loop starts with [update_id and].  For
    the same reason no iteration of the twitter loop or of the enhanced
    instagram loop ever adds a notification, whatever the item.  The
    guards themselves are the rule of section 4.3 applied to the truth
    value of [update_id], with thresholds 500 and 1000; the instagram
    guard lets announcements through as well. *)
Theorem fresh_trailer_is_not_relayed :
  let args := twitter_args geetha_arts quiet_trailer_tweet
                (extract_movie_info (tw_text quiet_trailer_tweet)) in
  let record := new_row 1 (bound_values args) 6 in
  let after := snd (process_tweet geetha_arts (mk_tick 5 6)
                      quiet_trailer_tweet initial_world) in
  key_present "twitter" "1001" (store initial_world) = false
  /\ movie_updates (store after) = [record]
  /\ Db.platform record = "twitter" /\ Db.content_id record = "1001"
  /\ Db.update_type record = "trailer" /\ Db.engagement_count record = 0%Z
  /\ Spec.should_notify
       (negb (key_present "twitter" "1001" (store initial_world)))
       (Db.update_type record) (Db.engagement_count record) 500
     = true
  /\ trace after = [Classified (tw_text quiet_trailer_tweet); Saved args]
  /\ notifications (trace after) = []
  /\ (forall acc k t w,
        notifications (trace (snd (process_tweet acc k t w)))
        = notifications (trace w))
  /\ (forall acc k p w,
        notifications (trace (snd (process_post_enhanced acc k p w)))
        = notifications (trace w))
  /\ (forall update_id mi t,
        twitter_significant update_id mi t
        = Spec.should_notify (truth update_id) (b_update_type mi)
            (twitter_engagement t) 500)
  /\ (forall update_id mi p,
        instagram_enhanced_significant update_id mi p
        = Spec.should_notify (truth update_id) (Classifier.update_type mi)
            (get (ig_like_count p) 0%Z) 1000
          || truth update_id
             && String.eqb (Classifier.update_type mi) "announcement").
Proof.
  cbv zeta.
  split; [reflexivity |]. split; [reflexivity |]. split; [reflexivity |].
  split; [reflexivity |]. split; [reflexivity |]. split; [reflexivity |].
  split; [reflexivity |]. split; [reflexivity |]. split; [reflexivity |].
  split; [| split; [| split]]; cycle 2.
  - intros update_id mi t;
      unfold twitter_significant, Spec.should_notify, twitter_engagement, mem.
    destruct (tw_public_metrics t); reflexivity.
  - intros update_id mi p;
      unfold instagram_enhanced_significant, Spec.should_notify, mem.
    cbn [existsb]; destruct (truth update_id); cbn [andb];
      [| reflexivity].
    destruct (String.eqb (Classifier.update_type mi) "trailer"),
      (String.eqb (Classifier.update_type mi) "teaser"),
      (String.eqb (Classifier.update_type mi) "poster"),
      (String.eqb (Classifier.update_type mi) "announcement"),
      (get (ig_like_count p) 0 >? 1000)%Z; reflexivity.
  - intros acc k t w; destruct (recent (k, t)) eqn:Hrec.
    + rewrite (process_tweet_recent acc k t w Hrec); cbn [snd trace].
      rewrite !notifications_app; cbn [notifications];
        rewrite !app_nil_r; reflexivity.
    + unfold recent in Hrec; cbn [fst snd] in Hrec.
      apply negb_false_iff, Z.ltb_lt in Hrec.
      rewrite (process_tweet_stale acc k t w Hrec); reflexivity.
  - intros acc k p w; rewrite process_post_enhanced_eq; cbn [snd].
    destruct ((ig_timestamp p <? t_now k - hours 12)%Z
              || negb (truthy (get (ig_caption p) ""))); [reflexivity |].
    cbv zeta; cbn [trace].
    rewrite !notifications_app; cbn [notifications];
      rewrite !app_nil_r; reflexivity.
Qed.

(* ------------------------------------------------------------------ *)
(** ** The read accessor *)

Section ApiFacts.

Import Api.

Lemma insert_desc_perm (r : row) (l : list row) :
  Permutation (insert_desc r l) (r :: l).
Proof.
  induction l as [| x l IH]; simpl; [apply Permutation_refl |].
  destruct (created_at x <=? created_at r)%Z; [apply Permutation_refl |].
  apply perm_trans with (x :: r :: l);
    [apply perm_skip; exact IH | apply perm_swap].
Qed.

Lemma order_perm (l : list row) :
  Permutation (order_by_created_at_desc l) l.
Proof.
  induction l as [| r l IH]; simpl; [constructor |].
  apply perm_trans with (r :: order_by_created_at_desc l);
    [apply insert_desc_perm | apply perm_skip; exact IH].
Qed.

Lemma insert_desc_sorted (r : row) (l : list row) :
  Spec.newest_first l -> Spec.newest_first (insert_desc r l).
Proof.
  unfold Spec.newest_first.
  induction l as [| x l IH]; intro Hs; simpl.
  - constructor; [constructor | constructor].
  - inversion Hs as [| ? ? Hl Hx]; subst.
    destruct (created_at x <=? created_at r)%Z eqn:Hle.
    + apply Z.leb_le in Hle.
      constructor; [exact Hs |].
      constructor; [exact Hle |].
      eapply Forall_impl; [| exact Hx].
      intros y Hy; cbv beta in *; lia.
    + apply Z.leb_gt in Hle.
      constructor; [apply IH; exact Hl |].
      apply (Permutation_Forall (Permutation_sym (insert_desc_perm r l))).
      constructor; [lia | exact Hx].
Qed.

Lemma order_sorted (l : list row) :
  Spec.newest_first (order_by_created_at_desc l).
Proof.
  induction l as [| r l IH]; simpl;
    [constructor | apply insert_desc_sorted; exact IH].
Qed.

Lemma eval_where_add (c : column) (v : option string) (w : where_clause)
      (r : row) :
  eval_where (add_filter c v w) r
  = eval_where w r && Spec.filter_holds v (column_of c r).
Proof.
  unfold add_filter, Spec.filter_holds, eval_where.
  destruct v as [x |]; [| rewrite andb_true_r; reflexivity].
  destruct (truthy x); [| rewrite andb_true_r; reflexivity].
  rewrite forallb_app; cbn [forallb fst snd].
  rewrite andb_true_r; reflexivity.
Qed.

(** The clause built from the request holds of exactly the rows on
    which every supplied filter holds. *)
Lemma built_where_is_conjunction (args : request_args) (r : row) :
  eval_where
    (add_filter UpdateType (q_update_type args)
       (add_filter Language (q_language args)
          (add_filter Platform (q_platform args) []))) r
  = Spec.all_filters_hold args r.
Proof.
  rewrite !eval_where_add; unfold Spec.all_filters_hold; reflexivity.
Qed.

Lemma limit_offset_window (limit offset : Z) (l : list row) :
  (0 <= limit)%Z ->
  limit_offset limit offset l
  = firstn (Z.to_nat limit) (skipn (Z.to_nat offset) l).
Proof.
  intro Hl; unfold limit_offset.
  destruct (limit <? 0)%Z eqn:Hneg; [apply Z.ltb_lt in Hneg; lia |].
  reflexivity.
Qed.

End ApiFacts.

(** C10. For every table and every request with page at least 1, a
    non-negative page size, and page size and offset (page - 1) * per_page
    within the 64 bits the database takes, the accessor answers with a
    window of one list: the rows on which all supplied filters hold,
    newest first.  The window skips the first (page - 1) * per_page rows
    and holds at most per_page rows, its i-th row being row
    (page - 1) * per_page + i of the list; [total] counts the list, and
    page and per_page are sent back. *)
Theorem updates_page :
  forall (args : Api.request_args) (db : database),
    (1 <= get (Api.q_page args) 1%Z)%Z ->
    (0 <= get (Api.q_per_page args) 20%Z)%Z ->
    in_int64 (get (Api.q_per_page args) 20%Z) = true ->
    in_int64 ((get (Api.q_page args) 1%Z - 1)
              * get (Api.q_per_page args) 20%Z) = true ->
    exists ordered : list row,
      Permutation ordered
        (filter (Spec.all_filters_hold args) (movie_updates db))
      /\ Spec.newest_first ordered
      /\ Api.get_updates args db
         = Normal
             {| Api.r_updates :=
                  firstn (Z.to_nat (get (Api.q_per_page args) 20%Z))
                    (skipn (Z.to_nat ((get (Api.q_page args) 1%Z - 1)
                                      * get (Api.q_per_page args) 20%Z))
                           ordered);
                Api.r_total := Z.of_nat (List.length ordered);
                Api.r_page := get (Api.q_page args) 1%Z;
                Api.r_per_page := get (Api.q_per_page args) 20%Z |}
      /\ (List.length (Api.updates (Api.get_updates args db))
          <= Z.to_nat (get (Api.q_per_page args) 20%Z))%nat
      /\ (forall i : nat,
            (i < Z.to_nat (get (Api.q_per_page args) 20%Z))%nat ->
            nth_error (Api.updates (Api.get_updates args db)) i
            = nth_error ordered
                (Z.to_nat (get (Api.q_page args) 1%Z - 1)
                 * Z.to_nat (get (Api.q_per_page args) 20%Z) + i)).
Proof.
  intros args db Hpage Hper Hlimit Hoffset.
  set (w := Api.add_filter Api.UpdateType (Api.q_update_type args)
              (Api.add_filter Api.Language (Api.q_language args)
                 (Api.add_filter Api.Platform (Api.q_platform args) []))).
  assert (Hsel : filter (Api.eval_where w) (movie_updates db)
                 = filter (Spec.all_filters_hold args) (movie_updates db)).
  { apply filter_ext; intro r; apply built_where_is_conjunction. }
  exists (Api.order_by_created_at_desc
            (filter (Spec.all_filters_hold args) (movie_updates db))).
  assert (Hget : Api.get_updates args db
                 = Normal
                     {| Api.r_updates :=
                          firstn (Z.to_nat (get (Api.q_per_page args) 20%Z))
                            (skipn (Z.to_nat ((get (Api.q_page args) 1%Z - 1)
                                              * get (Api.q_per_page args) 20%Z))
                               (Api.order_by_created_at_desc
                                  (filter (Spec.all_filters_hold args)
                                          (movie_updates db))));
                        Api.r_total :=
                          Z.of_nat
                            (List.length
                               (Api.order_by_created_at_desc
                                  (filter (Spec.all_filters_hold args)
                                          (movie_updates db))));
                        Api.r_page := get (Api.q_page args) 1%Z;
                        Api.r_per_page := get (Api.q_per_page args) 20%Z |}).
  { unfold Api.get_updates; cbv zeta; fold w.
    rewrite Hlimit, Hoffset, Hsel; cbn [andb].
    rewrite (limit_offset_window _ _ _ Hper).
    rewrite (Permutation_length (order_perm _)); reflexivity. }
  split; [apply order_perm |].
  split; [apply order_sorted |].
  split; [exact Hget |].
  rewrite Hget; cbn [Api.updates Api.r_updates].
  split; [apply firstn_le_length |].
  intros i Hi; rewrite nth_error_firstn.
  apply Nat.ltb_lt in Hi; rewrite Hi.
  rewrite nth_error_skipn, Z2Nat.inj_mul by lia; reflexivity.
Qed.

Lemma updates_page_witness :
  exists ordered : list row,
    Spec.newest_first ordered
    /\ Api.updates (Api.get_updates youtube_telugu_page_2 twelve_videos)
       = firstn 10 (skipn 10 ordered).
Proof.
  destruct (updates_page youtube_telugu_page_2 twelve_videos)
    as (ordered & _ & Hsorted & Hwindow & _).
  - vm_compute; discriminate.
  - vm_compute; discriminate.
  - reflexivity.
  - reflexivity.
  - exists ordered; split; [exact Hsorted |].
    rewrite Hwindow; reflexivity.
Defined.

(* ================================================================== *)
(** * Further properties of the code *)

Import Shape Paging.

(* ------------------------------------------------------------------ *)
(** ** Substrings and case *)

Section SubstringFacts.

Lemma append_assoc_s (a b c : string) : ((a ++ b) ++ c = a ++ (b ++ c))%string.
Proof. induction a as [| x a IH]; simpl; [reflexivity | rewrite IH; reflexivity]. Qed.

Lemma append_empty_r (a : string) : (a ++ "" = a)%string.
Proof. induction a as [| x a IH]; simpl; [reflexivity | rewrite IH; reflexivity]. Qed.

Lemma startswith_iff (p s : string) :
  startswith p s = true <-> exists post, s = (p ++ post)%string.
Proof.
  revert s; induction p as [| a p IH]; intro s; simpl.
  - split; [intros _; exists s; reflexivity | reflexivity].
  - destruct s as [| b s]; [split; [discriminate | intros [post H]; discriminate] |].
    rewrite andb_true_iff, Ascii.eqb_eq, IH; split.
    + intros [-> [post ->]]; exists post; reflexivity.
    + intros [post H]; injection H as -> ->; split; [reflexivity | exists post; reflexivity].
Qed.

Lemma contains_iff (w t : string) :
  contains w t = true <-> exists pre post, t = (pre ++ w ++ post)%string.
Proof.
  induction t as [| c t IH].
  - simpl; rewrite orb_false_r, startswith_iff; split.
    + intros [post H]; exists "", post; exact H.
    + intros [pre [post H]]; destruct pre; [exists post; exact H | discriminate].
  - cbn [contains]; rewrite orb_true_iff, startswith_iff, IH; split.
    + intros [[post H] | [pre [post H]]].
      * exists "", post; exact H.
      * exists (String c pre), post; rewrite H; reflexivity.
    + intros [pre [post H]]; destruct pre as [| x pre].
      * left; exists post; exact H.
      * right; injection H as _ H; exists pre, post; exact H.
Qed.

(** A keyword that occurs in a text occurs in every text the text occurs
    in. *)
Lemma contains_trans (a b t : string) :
  contains a b = true -> contains b t = true -> contains a t = true.
Proof.
  rewrite !contains_iff; intros [p1 [q1 ->]] [p2 [q2 ->]].
  exists (p2 ++ p1)%string, (q1 ++ q2)%string.
  rewrite !append_assoc_s; reflexivity.
Qed.

Lemma lower_char_idem (c : ascii) : lower_char (lower_char c) = lower_char c.
Proof.
  destruct c as [[] [] [] [] [] [] [] []]; reflexivity.
Qed.

Lemma lower_idem (s : string) : lower (lower s) = lower s.
Proof.
  induction s as [| c s IH]; simpl;
    [reflexivity | rewrite lower_char_idem, IH; reflexivity].
Qed.

(** A longer keyword adds nothing to a set that holds a part of it. *)
Lemma any_in_shadowed (w w' : string) (ws : list string) (t : string) :
  contains w w' = true -> In w ws ->
  any_in (ws ++ [w']) t = any_in ws t.
Proof.
  intros Hsub Hin; unfold any_in; rewrite existsb_app; cbn [existsb].
  rewrite orb_false_r.
  destruct (contains w' t) eqn:Hw'; [| apply orb_false_r].
  rewrite orb_true_r; symmetry; apply existsb_exists.
  exists w; split; [exact Hin | exact (contains_trans w w' t Hsub Hw')].
Qed.

End SubstringFacts.

(* ------------------------------------------------------------------ *)
(** ** More on the classifiers *)

(** X1. The keywords [official trailer], [character poster] and
    [tamilnadu] and the alias [jr ntr] never decide anything: each
    contains an entry of its own set, so the classifier answers as the
    cascades and the actor table without them do. *)
Theorem shadowed_keywords_change_nothing :
  forall text : string,
    Classifier.update_type (enhanced_extract_movie_info text)
    = Spec.cascade Shorter.update_type_sets "news" (lower text)
    /\ Classifier.language (enhanced_extract_movie_info text)
       = Spec.cascade Shorter.language_sets "" (lower text)
    /\ Classifier.actor_name (enhanced_extract_movie_info text)
       = Spec.first_entry Shorter.telugu_actors (lower text).
Proof.
  intro text.
  cbn [Classifier.update_type Classifier.language Classifier.actor_name
       enhanced_extract_movie_info].
  assert (Htr : any_in trailer_words (lower text)
                = any_in ["trailer"] (lower text)).
  { apply (any_in_shadowed "trailer" "official trailer" ["trailer"]);
      [reflexivity | left; reflexivity]. }
  assert (Hpo : any_in poster_words (lower text)
                = any_in ["poster"; "first look"] (lower text)).
  { apply (any_in_shadowed "poster" "character poster" ["poster"; "first look"]);
      [reflexivity | left; reflexivity]. }
  assert (Hta : any_in tamil_words (lower text)
                = any_in ["tamil"; "kollywood"] (lower text)).
  { apply (any_in_shadowed "tamil" "tamilnadu" ["tamil"; "kollywood"]);
      [reflexivity | left; reflexivity]. }
  split; [| split].
  - unfold enhanced_update_type, Spec.cascade, Shorter.update_type_sets.
    cbn [find fst snd]; rewrite Htr, Hpo.
    repeat match goal with
           | |- context [any_in ?ws (lower text)] =>
               destruct (any_in ws (lower text)); [reflexivity |]
           end.
    reflexivity.
  - unfold enhanced_language, Spec.cascade, Shorter.language_sets.
    cbn [find fst snd]; rewrite Hta.
    repeat match goal with
           | |- context [any_in ?ws (lower text)] =>
               destruct (any_in ws (lower text)); [reflexivity |]
           end.
    reflexivity.
  - rewrite scan_table_find.
    unfold Spec.first_entry, Shorter.telugu_actors, telugu_actors.
    cbn [filter fst snd String.eqb Ascii.eqb Bool.eqb negb find].
    destruct (contains "allu arjun" (lower text)); [reflexivity |].
    destruct (contains "prabhas" (lower text)); [reflexivity |].
    destruct (contains "mahesh babu" (lower text)); [reflexivity |].
    destruct (contains "jr ntr" (lower text)) eqn:Hjr; [| reflexivity].
    rewrite (contains_trans "ntr" "jr ntr" (lower text) eq_refl Hjr).
    reflexivity.
Qed.

(** X2. Update type, language, actor, director and production house
    depend on the text only through its lowercase form: two texts that
    differ in case only are classified alike on these five fields, and
    lowercasing a text beforehand changes none of them. *)
Theorem classification_ignores_case :
  forall a b : string,
    lower a = lower b ->
    let ia := enhanced_extract_movie_info a in
    let ib := enhanced_extract_movie_info b in
    (Classifier.update_type ia = Classifier.update_type ib
     /\ Classifier.language ia = Classifier.language ib
     /\ Classifier.actor_name ia = Classifier.actor_name ib
     /\ Classifier.director_name ia = Classifier.director_name ib
     /\ Classifier.production_house ia = Classifier.production_house ib)
    /\ b_update_type (extract_movie_info a) = b_update_type (extract_movie_info b)
    /\ b_language (extract_movie_info a) = b_language (extract_movie_info b)
    /\ Classifier.update_type (enhanced_extract_movie_info (lower a))
       = Classifier.update_type ia
    /\ Classifier.language (enhanced_extract_movie_info (lower a))
       = Classifier.language ia
    /\ Classifier.actor_name (enhanced_extract_movie_info (lower a))
       = Classifier.actor_name ia.
Proof.
  intros a b Hab; cbv zeta.
  cbn [Classifier.update_type Classifier.language Classifier.actor_name
       Classifier.director_name Classifier.production_house
       enhanced_extract_movie_info b_update_type b_language
       extract_movie_info].
  unfold base_update_type, base_language.
  rewrite lower_idem, Hab; repeat split.
Qed.

Lemma classification_ignores_case_witness :
  Classifier.update_type (enhanced_extract_movie_info "FIRST LOOK of Salaar")
  = Classifier.update_type (enhanced_extract_movie_info "first look of salaar").
Proof.
  apply (classification_ignores_case
           "FIRST LOOK of Salaar" "first look of salaar").
  vm_compute; reflexivity.
Defined.

(** X3. The values a classifier can give.  The enhanced one answers one
    of the seven update types and one of five languages or nothing; the
    base one never answers box_office or review, never malayalam or
    kannada, and never names a director. *)
Theorem classifier_ranges :
  forall text : string,
    In (Classifier.update_type (enhanced_extract_movie_info text))
       ["trailer"; "teaser"; "poster"; "announcement"; "box_office";
        "review"; "news"]
    /\ In (Classifier.language (enhanced_extract_movie_info text))
          ["telugu"; "tamil"; "hindi"; "malayalam"; "kannada"; ""]
    /\ In (b_update_type (extract_movie_info text))
          ["trailer"; "teaser"; "poster"; "announcement"; "news"]
    /\ In (b_language (extract_movie_info text))
          ["telugu"; "tamil"; "hindi"; ""]
    /\ b_director_name (extract_movie_info text) = "".
Proof.
  intro text.
  cbn [Classifier.update_type Classifier.language enhanced_extract_movie_info
       b_update_type b_language b_director_name extract_movie_info].
  unfold enhanced_update_type, enhanced_language, base_update_type,
    base_language.
  repeat split;
    repeat match goal with
           | |- context [any_in ?ws (lower text)] =>
               destruct (any_in ws (lower text))
           end;
    simpl; tauto.
Qed.

(* ------------------------------------------------------------------ *)
(** ** The movie-name patterns *)

Section PatternFacts.

Import Re.

Lemma contains_refl (g : string) : contains g g = true.
Proof.
  apply contains_iff; exists "", ""; simpl; rewrite append_empty_r; reflexivity.
Qed.

Lemma contains_empty (s : string) : contains "" s = true.
Proof. destruct s; reflexivity. Qed.

Lemma contains_append_l (g a b : string) :
  contains g a = true -> contains g (a ++ b) = true.
Proof.
  rewrite !contains_iff; intros [pre [post ->]].
  exists pre, (post ++ b)%string; rewrite !append_assoc_s; reflexivity.
Qed.

Lemma contains_append_r (g a b : string) :
  contains g b = true -> contains g (a ++ b) = true.
Proof.
  rewrite !contains_iff; intros [pre [post ->]].
  exists (a ++ pre)%string, post; rewrite !append_assoc_s; reflexivity.
Qed.

Lemma match_lit_split (p s s' : string) :
  match_lit p s = Some s' ->
  s = (substring 0 (String.length p) s ++ s')%string.
Proof.
  revert s; induction p as [| a p IH]; intros s H.
  - simpl in H; injection H as ->; destruct s'; reflexivity.
  - destruct s as [| b s]; [discriminate |].
    simpl in H; destruct (Ascii.eqb (lower_char a) (lower_char b));
      [| discriminate].
    simpl; f_equal; apply IH; exact H.
Qed.

Lemma plus_splits_sound (cls : ascii -> bool) (s c r : string) :
  In (c, r) (plus_splits cls s) -> s = (c ++ r)%string.
Proof.
  revert c r; induction s as [| x s IH]; intros c r Hin; [destruct Hin |].
  simpl in Hin; destruct (cls x); [| destruct Hin].
  apply in_app_or in Hin as [Hin | [Heq | []]].
  - apply in_map_iff in Hin as [[c' r'] [Heq Hin']].
    injection Heq as <- <-; simpl; f_equal; apply IH; exact Hin'.
  - injection Heq as <- <-; reflexivity.
Qed.

(** Every way of matching splits the text into what was consumed and what
    is left, and a captured group lies inside what was consumed. *)
Lemma matches_sound (r : regex) :
  forall s o,
    In o (matches r s) ->
    s = (consumed o ++ rest o)%string
    /\ forall g, captured o = Some g -> contains g (consumed o) = true.
Proof.
  induction r as [p | cls | r1 IH1 r2 IH2 | r1 IH1 r2 IH2 | r IH];
    intros s o Hin; simpl in Hin.
  - destruct (match_lit p s) as [s' |] eqn:Hm; [| destruct Hin].
    destruct Hin as [<- | []]; simpl; split;
      [apply match_lit_split; exact Hm | discriminate].
  - apply in_map_iff in Hin as [[c r'] [<- Hin]]; simpl; split;
      [apply (plus_splits_sound cls); exact Hin | discriminate].
  - apply in_flat_map in Hin as [o1 [Ho1 Hin]].
    apply in_map_iff in Hin as [o2 [<- Ho2]]; simpl.
    destruct (IH1 _ _ Ho1) as [Hs1 Hc1], (IH2 _ _ Ho2) as [Hs2 Hc2].
    split; [rewrite append_assoc_s, <- Hs2; exact Hs1 |].
    intros g Hg; unfold join_capture in Hg.
    destruct (captured o2) as [g2 |] eqn:Hcap2.
    + injection Hg as <-; apply contains_append_r, Hc2; reflexivity.
    + apply contains_append_l, Hc1; exact Hg.
  - apply in_app_or in Hin as [Hin | Hin]; [apply IH1 | apply IH2]; exact Hin.
  - apply in_map_iff in Hin as [o' [<- Ho']]; simpl.
    destruct (IH _ _ Ho') as [Hs _]; split; [exact Hs |].
    intros g Hg; injection Hg as <-; apply contains_refl.
Qed.

Lemma findall_from_inside (r : regex) (s : string) :
  forall skip g, In g (findall_from r skip s) -> contains g s = true.
Proof.
  induction s as [| c s IH]; intros skip g Hin.
  - destruct skip; destruct Hin.
  - destruct skip as [| k].
    + cbn [findall_from] in Hin.
      destruct (matches r (String c s)) as [| o os] eqn:Hm.
      * apply (contains_append_r g (String c "") s), (IH 0%nat); exact Hin.
      * destruct Hin as [Hg | Hin].
        -- destruct (matches_sound r (String c s) o) as [Hs Hc];
             [rewrite Hm; left; reflexivity |].
           destruct (captured o) as [g0 |].
           ++ subst g; rewrite Hs; apply contains_append_l, Hc; reflexivity.
           ++ subst g; apply contains_empty.
        -- apply (contains_append_r g (String c "") s), (IH _ _ Hin).
    + cbn [findall_from] in Hin.
      apply (contains_append_r g (String c "") s), (IH k); exact Hin.
Qed.

Lemma scan_patterns_inside (ps : list regex) (text : string) :
  contains (scan_patterns ps text "") text = true.
Proof.
  induction ps as [| p ps IH]; simpl; [apply contains_empty |].
  destruct (findall p text) as [| m ms] eqn:Hf; [exact IH |].
  apply (findall_from_inside p text 0); fold (findall p text).
  rewrite Hf; left; reflexivity.
Qed.

(** A match somewhere in the text: where [findall] finds anything, some
    tail of the text has a match at its start. *)
Lemma findall_from_match (r : regex) (s : string) :
  forall skip,
    findall_from r skip s <> [] ->
    exists pre tail, s = (pre ++ tail)%string /\ matches r tail <> [].
Proof.
  induction s as [| c s IH]; intros skip Hne.
  - destruct skip; contradiction.
  - destruct skip as [| k]; cbn [findall_from] in Hne.
    + destruct (matches r (String c s)) as [| o os] eqn:Hm.
      * destruct (IH 0%nat Hne) as (pre & tail & -> & Ht).
        exists (String c pre), tail; split; [reflexivity | exact Ht].
      * exists "", (String c s); split; [reflexivity | rewrite Hm; discriminate].
    + destruct (IH k Hne) as (pre & tail & -> & Ht).
      exists (String c pre), tail; split; [reflexivity | exact Ht].
Qed.

(** A match at the start of a tail of the text is a match somewhere in
    the text. *)
Lemma search_tail (r : regex) (pre tail : string) :
  matches r tail <> [] -> search r (pre ++ tail) = true.
Proof.
  intro Hne; induction pre as [| c pre IH].
  - destruct tail as [| c tail]; cbn [append search];
      destruct (matches r _); [contradiction | | contradiction |];
      reflexivity.
  - cbn [append search]; destruct (matches r (String c (pre ++ tail)));
      [exact IH | reflexivity].
Qed.

Lemma cat_match (r1 r2 : regex) (s : string) :
  matches (Cat r1 r2) s <> [] ->
  exists o1, In o1 (matches r1 s) /\ matches r2 (rest o1) <> [].
Proof.
  simpl; intro Hne.
  destruct (flat_map _ (matches r1 s)) as [| o os] eqn:Hf; [contradiction |].
  assert (Hin : In o (o :: os)) by (left; reflexivity).
  rewrite <- Hf in Hin; apply in_flat_map in Hin as [o1 [Ho1 Hin]].
  exists o1; split; [exact Ho1 |].
  intro Hnil; rewrite Hnil in Hin; destruct Hin.
Qed.

End PatternFacts.

Section QuoteFacts.

Import Re.

Lemma lower_char_is (q b : ascii) :
  lower_char q = q -> (N_of_ascii q < 97)%N ->
  lower_char q = lower_char b -> b = q.
Proof.
  intros Hq Hlt; rewrite Hq; intro Hb; subst q; revert Hlt.
  destruct b as [[] [] [] [] [] [] [] []]; vm_compute; congruence.
Qed.

(** A pattern that opens with a quote character only matches where the
    text has that character. *)
Lemma quote_match_contains (q : ascii) (r : regex) (pre tail : string) :
  lower_char q = q -> (N_of_ascii q < 97)%N ->
  matches (Cat (Lit (String q "")) r) tail <> [] ->
  contains (String q "") (pre ++ tail) = true.
Proof.
  intros Hq Hlt Hne; apply cat_match in Hne as [o1 [Ho1 _]].
  apply contains_append_r.
  simpl in Ho1; destruct tail as [| b tail]; [destruct Ho1 |].
  destruct (Ascii.eqb (lower_char q) (lower_char b)) eqn:Hb; [| destruct Ho1].
  apply Ascii.eqb_eq in Hb; apply (lower_char_is q b Hq Hlt) in Hb; subst b.
  apply contains_iff; exists "", tail; reflexivity.
Qed.

Lemma cat_match_tail (r1 r2 : regex) (s : string) :
  matches (Cat r1 r2) s <> [] ->
  exists pre tail, s = (pre ++ tail)%string /\ matches r2 tail <> [].
Proof.
  intro Hne; apply cat_match in Hne as [o1 [Ho1 Hm]].
  exists (consumed o1), (rest o1); split;
    [apply (matches_sound r1 s o1 Ho1) | exact Hm].
Qed.

(** The first two patterns end in one of the four title words. *)
Lemma titled_pattern_match (a b : regex) (text : string) :
  findall (Cat a (Cat b title_words)) text <> [] ->
  search title_words text = true.
Proof.
  intro Hne.
  destruct (findall_from_match _ text 0 Hne) as (pre & tail & -> & Hm).
  apply cat_match_tail in Hm as (p1 & t1 & -> & Hm).
  apply cat_match_tail in Hm as (p2 & t2 & -> & Hm).
  rewrite <- !append_assoc_s; apply search_tail; exact Hm.
Qed.

Lemma quoted_pattern_match (q : ascii) (r : regex) (text : string) :
  lower_char q = q -> (N_of_ascii q < 97)%N ->
  findall (Cat (Lit (String q "")) r) text <> [] ->
  contains (String q "") text = true.
Proof.
  intros Hq Hlt Hne.
  destruct (findall_from_match _ text 0 Hne) as (pre & tail & -> & Hm).
  apply (quote_match_contains q r pre tail Hq Hlt Hm).
Qed.

End QuoteFacts.

(** X4. The movie name is cut out of the text as it stands: for every
    text the name is a contiguous piece of the text itself, in the text's
    own spelling (and the empty piece when no pattern matches). *)
Theorem movie_name_is_part_of_text :
  forall text : string,
    contains (Classifier.movie_name (enhanced_extract_movie_info text)) text
    = true.
Proof.
  intro text; cbn [Classifier.movie_name enhanced_extract_movie_info].
  apply scan_patterns_inside.
Qed.

(** X5. No movie name without a cue: when none of the words movie,
    film, trailer, teaser matches anywhere in the text, compared the way
    the patterns compare them ([re.search] with [IGNORECASE] finds
    nothing), and the text holds neither a double nor a single quote, the
    movie name is empty. *)
Theorem movie_name_needs_a_cue :
  forall text : string,
    Re.search title_words text = false ->
    contains (String (ascii_of_N 34) "") text = false ->
    contains "'" text = false ->
    Classifier.movie_name (enhanced_extract_movie_info text) = "".
Proof.
  intros text Hwords Hdq Hsq.
  cbn [Classifier.movie_name enhanced_extract_movie_info].
  unfold movie_patterns; cbn [scan_patterns].
  destruct (Re.findall hashtag_pattern text) as [| m1 ms1] eqn:H1.
  2:{ exfalso.
      assert (Hne : Re.findall hashtag_pattern text <> [])
        by (rewrite H1; discriminate).
      apply titled_pattern_match in Hne; congruence. }
  destruct (Re.findall spaced_pattern text) as [| m2 ms2] eqn:H2.
  2:{ exfalso.
      assert (Hne : Re.findall spaced_pattern text <> [])
        by (rewrite H2; discriminate).
      apply titled_pattern_match in Hne; congruence. }
  destruct (Re.findall double_quoted_pattern text) as [| m3 ms3] eqn:H3.
  2:{ exfalso.
      assert (Hne : Re.findall double_quoted_pattern text <> [])
        by (rewrite H3; discriminate).
      apply quoted_pattern_match in Hne;
        [congruence | reflexivity | reflexivity]. }
  destruct (Re.findall single_quoted_pattern text) as [| m4 ms4] eqn:H4.
  2:{ exfalso.
      assert (Hne : Re.findall single_quoted_pattern text <> [])
        by (rewrite H4; discriminate).
      apply quoted_pattern_match in Hne;
        [congruence | reflexivity | reflexivity]. }
  reflexivity.
Qed.

Lemma movie_name_needs_a_cue_witness :
  Classifier.movie_name
    (enhanced_extract_movie_info "Shooting of #Salaar2 wrapped in Hyderabad")
  = "".
Proof.
  apply movie_name_needs_a_cue; vm_compute; reflexivity.
Defined.

(* ------------------------------------------------------------------ *)
(** ** More on the gate *)

Section GateHistory.


Lemma sorted_snoc (ids : list Z) (n : Z) :
  StronglySorted Z.lt ids -> Forall (fun x => (x < n)%Z) ids ->
  StronglySorted Z.lt (ids ++ [n]).
Proof.
  induction ids as [| x ids IH]; intros Hsorted Hlt; cbn [app].
  - constructor; constructor.
  - inversion Hsorted as [| ? ? Hrest Hx]; subst.
    inversion Hlt as [| ? ? Hxn Hlt']; subst.
    constructor; [apply IH; assumption |].
    apply Forall_app; split; [exact Hx | constructor; [exact Hxn | constructor]].
Qed.

Lemma insert_keeps_order (v : values) (now : Z) (db : database) :
  rowids_in_order db -> rowids_in_order (insert_or_ignore v now db).
Proof.
  intros (Hseq & Hsorted & Hids); unfold insert_or_ignore, rowids_in_order.
  destruct (key_present (v_platform v) (text_of (v_content_id v)) db);
    cbn [movie_updates movie_updates_seq].
  - split; [lia |]. split; [exact Hsorted |].
    eapply Forall_impl; [| exact Hids]; cbv beta; intros r Hr; lia.
  - split; [lia |]. split.
    + rewrite map_app; cbn [map id new_row].
      apply sorted_snoc; [exact Hsorted |].
      apply Forall_map; eapply Forall_impl; [| exact Hids].
      cbv beta; intros r Hr; lia.
    + apply Forall_app; split.
      * eapply Forall_impl; [| exact Hids]; cbv beta; intros r Hr; lia.
      * constructor; [cbn [id new_row]; lia | constructor].
Qed.

Lemma run_keeps_order (calls : list (save_args * Z)) (db : database) :
  rowids_in_order db -> rowids_in_order (run_saves calls db).
Proof.
  revert db; induction calls as [| [a now] calls IH]; intros db Hdb;
    [exact Hdb |].
  cbn [run_saves]; apply IH; rewrite save_movie_update_eq; cbn [snd].
  unfold save_effect; destruct (bindable (bound_values a));
    [apply insert_keeps_order |]; exact Hdb.
Qed.

Lemma insert_seq (v : values) (now : Z) (db : database) :
  movie_updates_seq (insert_or_ignore v now db) = (movie_updates_seq db + 1)%Z.
Proof.
  unfold insert_or_ignore.
  destruct (key_present (v_platform v) (text_of (v_content_id v)) db);
    reflexivity.
Qed.

(** The counter counts the calls that reached the table. *)
Lemma run_seq (calls : list (save_args * Z)) (db : database) :
  movie_updates_seq (run_saves calls db)
  = (movie_updates_seq db + Z.of_nat (List.length (bound_calls calls)))%Z.
Proof.
  revert db; induction calls as [| [a now] calls IH]; intro db.
  - simpl; lia.
  - cbn [run_saves]; rewrite IH, save_movie_update_eq; cbn [snd].
    unfold bound_calls, save_effect, storable; cbn [filter fst].
    destruct (bindable (bound_values a)); [| reflexivity].
    rewrite insert_seq; cbn [List.length]; lia.
Qed.

Lemma effect_appends (v : values) (now : Z) (db : database) :
  exists added,
    movie_updates (save_effect v now db) = movie_updates db ++ added
    /\ Forall (fun r => posted_to_telegram r = false) added
    /\ (List.length added <= 1)%nat.
Proof.
  unfold save_effect, insert_or_ignore.
  destruct (bindable v);
    [destruct (key_present (v_platform v) (text_of (v_content_id v)) db) |].
  - exists []; rewrite app_nil_r; repeat split; [constructor | simpl; lia].
  - eexists; cbn [movie_updates]; repeat split;
      [constructor; [reflexivity | constructor] | simpl; lia].
  - exists []; rewrite app_nil_r; repeat split; [constructor | simpl; lia].
Qed.

(** After a call that reached the table its key is stored, so a further
    call under the key adds no row; it moves the counter when it reaches
    the table itself. *)
Lemma save_same_key_rows (a a' : save_args) (now now' : Z) (db : database) :
  same_key a a' = true ->
  storable a = true ->
  snd (save_movie_update a' now' (snd (save_movie_update a now db)))
  = {| movie_updates := movie_updates (snd (save_movie_update a now db));
       movie_updates_seq :=
         (movie_updates_seq (snd (save_movie_update a now db))
          + if storable a' then 1 else 0)%Z |}.
Proof.
  intros Hsame Hok.
  apply andb_true_iff in Hsame as [Hp Hc]; apply String.eqb_eq in Hp, Hc.
  rewrite !save_movie_update_eq; cbn [snd].
  unfold save_effect at 1; fold (storable a').
  destruct (storable a').
  - apply insert_present; rewrite key_present_effect.
    unfold storable in Hok; rewrite Hok.
    cbn [bound_values v_platform v_content_id andb].
    rewrite Hp, Hc, !String.eqb_refl, orb_true_r; reflexivity.
  - rewrite Z.add_0_r; destruct (save_effect _ _ _); reflexivity.
Qed.

End GateHistory.

(** X6. A second save under a stored key adds nothing, whatever the
    table: after a save that reached the table (its integers fit 64
    bits), a save under the same (platform, content_id), with any payload
    and at any time, leaves the rows exactly as the first save left them.
    Only the rowid counter moves, by one when the second save reaches the
    table too. *)
Theorem second_save_changes_nothing :
  forall (a a' : save_args) (now now' : Z) (db : database),
    same_key a a' = true ->
    storable a = true ->
    movie_updates
      (snd (save_movie_update a' now' (snd (save_movie_update a now db))))
    = movie_updates (snd (save_movie_update a now db))
    /\ movie_updates_seq
         (snd (save_movie_update a' now' (snd (save_movie_update a now db))))
       = (movie_updates_seq (snd (save_movie_update a now db))
          + if storable a' then 1 else 0)%Z.
Proof.
  intros a a' now now' db Hsame Hok.
  rewrite (save_same_key_rows a a' now now' db Hsame Hok).
  split; reflexivity.
Qed.

Lemma second_save_changes_nothing_witness :
  movie_updates
    (snd (save_movie_update second_payload 20
            (snd (save_movie_update first_payload 10 empty_database))))
  = movie_updates (snd (save_movie_update first_payload 10 empty_database)).
Proof.
  apply (second_save_changes_nothing first_payload second_payload 10 20
           empty_database); reflexivity.
Defined.

(** X7. The table only grows at its end.  Whatever saves run on whatever
    table, the rows that were there stay where they were, unchanged; at
    most one row per call is added behind them; and every added row has
    its relayed flag [posted_to_telegram] off. *)
Theorem saves_only_append :
  forall (calls : list (save_args * Z)) (db : database),
    exists added : list row,
      movie_updates (run_saves calls db) = movie_updates db ++ added
      /\ Forall (fun r => posted_to_telegram r = false) added
      /\ (List.length added <= List.length calls)%nat.
Proof.
  intro calls; induction calls as [| [a now] calls IH]; intro db.
  - exists []; rewrite app_nil_r; repeat split; [constructor | simpl; lia].
  - cbn [run_saves]; rewrite save_movie_update_eq; cbn [snd].
    destruct (effect_appends (bound_values a) now db) as (add1 & H1 & F1 & L1).
    destruct (IH (save_effect (bound_values a) now db))
      as (add2 & H2 & F2 & L2).
    exists (add1 ++ add2); rewrite H2, H1, <- app_assoc.
    repeat split; [apply Forall_app; split; assumption |].
    rewrite length_app; simpl; lia.
Qed.

(** X8. In a table filled by saves alone the rowids grow in table order
    and none exceeds the counter, which stands at the number of saves
    that reached the table: a save that is ignored uses up a rowid too.
    After a new key, the same key again and another new key the rowids
    are 1 and 3. *)
Theorem rowids_count_up :
  (forall calls : list (save_args * Z),
      let db := run_saves calls empty_database in
      StronglySorted Z.lt (map id (movie_updates db))
      /\ Forall (fun r => (1 <= id r <= movie_updates_seq db)%Z)
                (movie_updates db)
      /\ movie_updates_seq db = Z.of_nat (List.length (bound_calls calls)))
  /\ (let db := run_saves [(first_payload, 10%Z); (second_payload, 20%Z);
                           (third_payload, 30%Z)] empty_database in
      map id (movie_updates db) = [1%Z; 3%Z] /\ movie_updates_seq db = 3%Z).
Proof.
  split; [| split; reflexivity].
  intro calls; cbv zeta.
  destruct (run_keeps_order calls empty_database) as (_ & Hsorted & Hids).
  { split; [simpl; lia | split; constructor]. }
  split; [exact Hsorted |]. split; [exact Hids |].
  rewrite run_seq; reflexivity.
Qed.


(* ------------------------------------------------------------------ *)
(** ** More on the pollers *)

Section FeedFacts.

Lemma str_of_Z_inj (n m : Z) : str_of_Z n = str_of_Z m -> n = m.
Proof.
  unfold str_of_Z, int_text; intro H; apply DecimalZ.to_int_inj.
  assert (Hback : forall z,
             NilZero.int_of_string (NilZero.string_of_int (Z.to_int z))
             = Some (Z.to_int z)).
  { intro z; apply NilZero.isi; destruct z; simpl; try discriminate;
      intro E; injection E; apply Unsigned.to_uint_nonnil. }
  apply (f_equal NilZero.int_of_string) in H; rewrite !Hback in H.
  injection H; trivial.
Qed.




Lemma process_tweets_run (acc : account) (batch : list (tick * tweet)) :
  forall w,
    process_tweets acc batch w
    = (Normal tt,
       {| store := run_saves (map (twitter_call acc) (filter recent batch))
                             (store w);
          trace := trace w
                   ++ flat_map (twitter_events acc) (filter recent batch) |}).
Proof.
  induction batch as [| [k t] batch IH]; intro w.
  - simpl; rewrite app_nil_r; destruct w; reflexivity.
  - unfold process_tweets in *; cbn [for_each fst snd filter]; unfold bind.
    destruct (recent (k, t)) eqn:Hrec.
    + rewrite (process_tweet_recent acc k t w Hrec), IH.
      cbn [store trace map flat_map run_saves twitter_call twitter_events
           fst snd app].
      rewrite save_movie_update_eq; cbn [snd].
      rewrite <- !app_assoc; reflexivity.
    + unfold recent in Hrec; cbn [fst snd] in Hrec.
      apply negb_false_iff, Z.ltb_lt in Hrec.
      rewrite (process_tweet_stale acc k t w Hrec); apply IH.
Qed.

End FeedFacts.

(** X10. A twitter batch is the run of its recent tweets, in order: the
    table after the batch is the table after saving, one by one, the
    arguments built for each tweet inside the window, and the calls made
    are, per such tweet, one to the classifier and one to the gate, with
    no call to the notifier at all. *)
Theorem twitter_batch_is_a_run_of_saves :
  forall (acc : account) (batch : list (tick * tweet)) (w : world),
    process_tweets acc batch w
    = (Normal tt,
       {| store := run_saves (map (twitter_call acc) (filter recent batch))
                             (store w);
          trace := trace w
                   ++ flat_map (twitter_events acc) (filter recent batch) |}).
Proof. intros acc batch w; apply process_tweets_run. Qed.



(** X12. What the feeds take for the same content.  Two tweets share a
    key exactly when they have the same id, whichever account they were
    fetched for; the two instagram loops build the same key for a post,
    and the two youtube loops for a video, whatever they classified. *)
Theorem keys_of_the_feeds :
  (forall acc acc' t t' mi mi',
      same_key (twitter_args acc t mi) (twitter_args acc' t' mi') = true
      <-> tw_id t = tw_id t')
  /\ (forall acc acc' p mi mi',
        same_key (instagram_args acc p mi)
                 (instagram_enhanced_args acc' p mi') = true)
  /\ (forall v mi mi',
        same_key (youtube_args v mi) (youtube_search_args v mi') = true).
Proof.
  split; [| split].
  - intros acc acc' t t' mi mi'.
    unfold same_key; cbn [twitter_args a_platform a_content_id text_of].
    rewrite String.eqb_refl; cbn [andb]; rewrite String.eqb_eq; split.
    + apply str_of_Z_inj.
    + intros ->; reflexivity.
  - intros acc acc' p mi mi'; unfold same_key;
      cbn [instagram_args instagram_enhanced_args a_platform a_content_id].
    rewrite !String.eqb_refl; reflexivity.
  - intros v mi mi'; unfold same_key;
      cbn [youtube_args youtube_search_args a_platform a_content_id].
    rewrite !String.eqb_refl; reflexivity.
Qed.



(* ------------------------------------------------------------------ *)
(** ** More on the read accessor *)

Section PagingFacts.

Import Api.

Lemma firstn_add {A} (a b : nat) (l : list A) :
  firstn (a + b) l = firstn a l ++ firstn b (skipn a l).
Proof.
  revert l; induction a as [| a IH]; intro l; [reflexivity |].
  destruct l as [| x l]; simpl; [rewrite firstn_nil; reflexivity |].
  rewrite IH; reflexivity.
Qed.

Lemma selected_rows (args : request_args) (db : database) :
  filter (eval_where
            (add_filter UpdateType (q_update_type args)
               (add_filter Language (q_language args)
                  (add_filter Platform (q_platform args) []))))
         (movie_updates db)
  = filter (Spec.all_filters_hold args) (movie_updates db).
Proof. apply filter_ext; intro r; apply built_where_is_conjunction. Qed.

(** The route, with the clause it builds read as the conjunction of the
    supplied filters. *)
Lemma get_updates_eq (args : request_args) (db : database) :
  get_updates args db
  = if in_int64 (get (q_per_page args) 20%Z)
       && in_int64 ((get (q_page args) 1%Z - 1) * get (q_per_page args) 20%Z)
    then
      Normal
        {| r_updates :=
             limit_offset (get (q_per_page args) 20%Z)
               ((get (q_page args) 1%Z - 1) * get (q_per_page args) 20%Z)
               (order_by_created_at_desc
                  (filter (Spec.all_filters_hold args) (movie_updates db)));
           r_total :=
             Z.of_nat
               (List.length
                  (filter (Spec.all_filters_hold args) (movie_updates db)));
           r_page := get (q_page args) 1%Z;
           r_per_page := get (q_per_page args) 20%Z |}
    else Raise OverflowError.
Proof.
  unfold get_updates; cbv zeta; rewrite selected_rows; reflexivity.
Qed.

Lemma filters_with_page (args : request_args) (p n : Z) (r : row) :
  Spec.all_filters_hold (with_page args p n) r = Spec.all_filters_hold args r.
Proof. reflexivity. Qed.

Lemma everything_eq (args : request_args) (db : database) :
  everything args db
  = order_by_created_at_desc
      (filter (Spec.all_filters_hold args) (movie_updates db)).
Proof.
  unfold everything; rewrite get_updates_eq; reflexivity.
Qed.

Lemma page_eq (args : request_args) (p n : Z) (db : database) :
  in_int64 n = true -> in_int64 ((p - 1) * n) = true ->
  get_updates (with_page args p n) db
  = Normal
      {| r_updates := limit_offset n ((p - 1) * n) (everything args db);
         r_total := Z.of_nat (List.length (everything args db));
         r_page := p;
         r_per_page := n |}.
Proof.
  intros Hn Hoff; rewrite get_updates_eq, everything_eq.
  cbn [with_page q_page q_per_page get]; rewrite Hn, Hoff; cbn [andb].
  rewrite (Permutation_length (order_perm _)); reflexivity.
Qed.

Lemma in_firstn_l {A} (n : nat) (l : list A) (x : A) :
  In x (firstn n l) -> In x l.
Proof.
  intro H; rewrite <- (firstn_skipn n l); apply in_or_app; left; exact H.
Qed.

Lemma in_skipn_l {A} (n : nat) (l : list A) (x : A) :
  In x (skipn n l) -> In x l.
Proof.
  intro H; rewrite <- (firstn_skipn n l); apply in_or_app; right; exact H.
Qed.

Lemma limit_offset_in (limit offset : Z) (l : list row) (r : row) :
  In r (limit_offset limit offset l) -> In r l.
Proof.
  unfold limit_offset; intro Hin.
  destruct (limit <? 0)%Z; [| apply in_firstn_l in Hin];
    apply (in_skipn_l _ _ _ Hin).
Qed.

End PagingFacts.

(** X14. Pages tile the result.  For every request and page size, with
    the page size and the offset of the last page within the 64 bits the
    database takes, pages 1 to k laid end to end are the first
    k * per_page rows of everything the filters select: no row is served
    twice and none is passed over. *)
Theorem pages_tile_the_result :
  forall (args : Api.request_args) (db : database) (n k : nat),
    in_int64 (Z.of_nat n) = true ->
    in_int64 (Z.of_nat ((k - 1) * n)) = true ->
    pages args (Z.of_nat n) k db = firstn (k * n) (everything args db).
Proof.
  intros args db n k Hn; unfold pages.
  induction k as [| k IH]; intro Hoff; [reflexivity |].
  assert (Hsmaller : in_int64 (Z.of_nat ((k - 1) * n)) = true).
  { unfold in_int64 in *; apply andb_true_iff in Hoff as [_ Hoff].
    apply Z.leb_le in Hoff; apply andb_true_iff; split;
      [apply Z.leb_le; lia | apply Z.leb_le; nia]. }
  rewrite seq_S, flat_map_app, (IH Hsmaller); cbn [flat_map];
    rewrite app_nil_r.
  rewrite page_eq; [| exact Hn |].
  2:{ replace ((Z.of_nat (1 + k) - 1) * Z.of_nat n)%Z
        with (Z.of_nat ((S k - 1) * n)) by lia; exact Hoff. }
  cbn [Api.updates Api.r_updates]; rewrite limit_offset_window by lia.
  replace (Z.to_nat ((Z.of_nat (1 + k) - 1) * Z.of_nat n)) with (k * n)%nat
    by lia.
  rewrite Nat2Z.id; simpl; rewrite Nat.add_comm; symmetry; apply firstn_add.
Qed.

Lemma pages_tile_the_result_witness :
  pages youtube_telugu_page_2 5 2 twelve_videos
  = firstn 10 (everything youtube_telugu_page_2 twelve_videos).
Proof.
  apply (pages_tile_the_result youtube_telugu_page_2 twelve_videos 5 2);
    reflexivity.
Defined.

(** X15. Out-of-range paging values.  With page size and offset within
    the 64 bits the database takes: a negative [per_page] lifts the
    limit, so for any page from 1 on all selected rows come back; a page
    of 1 or less, with a page size that is not negative, is page 1; a
    page that starts behind the last selected row is empty; and [total]
    is the number of selected rows whatever page is asked for.  With a
    page size or an offset outside 64 bits the request fails. *)
Theorem paging_edges :
  forall (args : Api.request_args) (db : database) (p n : Z),
    (in_int64 n = true -> in_int64 ((p - 1) * n) = true ->
     ((1 <= p)%Z -> (n < 0)%Z ->
      Api.updates (Api.get_updates (with_page args p n) db)
      = everything args db)
     /\ ((p <= 1)%Z -> (0 <= n)%Z ->
         Api.updates (Api.get_updates (with_page args p n) db)
         = Api.updates (Api.get_updates (with_page args 1 n) db))
     /\ ((0 <= n)%Z ->
         (Z.of_nat (List.length (everything args db)) <= (p - 1) * n)%Z ->
         Api.updates (Api.get_updates (with_page args p n) db) = [])
     /\ Api.total (Api.get_updates (with_page args p n) db)
        = Some (Z.of_nat (List.length (everything args db))))
    /\ (in_int64 n && in_int64 ((p - 1) * n) = false ->
        Api.get_updates (with_page args p n) db = Raise OverflowError).
Proof.
  intros args db p n; split.
  - intros Hn Hoff; rewrite (page_eq args p n db Hn Hoff).
    cbn [Api.updates Api.r_updates Api.total Api.r_total].
    split; [| split; [| split]].
    + intros Hp Hneg; unfold Api.limit_offset.
      apply Z.ltb_lt in Hneg as Hneg'; rewrite Hneg'.
      replace (Z.to_nat ((p - 1) * n)) with 0%nat by nia; reflexivity.
    + intros Hp Hpos; rewrite (page_eq args 1 n db Hn eq_refl).
      cbn [Api.updates Api.r_updates].
      rewrite !limit_offset_window by lia.
      replace (Z.to_nat ((p - 1) * n)) with 0%nat by nia; reflexivity.
    + intros Hpos Hlen; rewrite limit_offset_window by lia.
      rewrite skipn_all2 by lia; apply firstn_nil.
    + reflexivity.
  - intro Hout; rewrite get_updates_eq.
    cbn [with_page Api.q_page Api.q_per_page get]; rewrite Hout; reflexivity.
Qed.

Lemma paging_edges_witness :
  Api.updates (Api.get_updates (with_page youtube_telugu_page_2 3 (-5))
                 twelve_videos)
  = everything youtube_telugu_page_2 twelve_videos.
Proof.
  apply (proj1 (proj1 (paging_edges youtube_telugu_page_2 twelve_videos
                         3 (-5)) eq_refl eq_refl));
    vm_compute; [discriminate | reflexivity].
Defined.

(** X16. Whatever the paging values, every row served is a row of the
    table on which all supplied filters hold, compared as exact strings;
    and a filter sent empty counts as not sent. *)
Theorem served_rows_pass_the_filters :
  forall (args : Api.request_args) (db : database),
    (forall r : row,
        In r (Api.updates (Api.get_updates args db)) ->
        In r (movie_updates db) /\ Spec.all_filters_hold args r = true)
    /\ Api.get_updates (drop_empty args) db = Api.get_updates args db.
Proof.
  intros args db; split.
  - intros r Hin; rewrite get_updates_eq in Hin.
    destruct (in_int64 _ && in_int64 _); [| destruct Hin].
    cbn [Api.updates Api.r_updates] in Hin; apply limit_offset_in in Hin.
    apply (Permutation_in _ (order_perm _)), filter_In in Hin; exact Hin.
  - unfold Api.get_updates, drop_empty; cbn [Api.q_platform Api.q_language
      Api.q_update_type Api.q_page Api.q_per_page].
    destruct (Api.q_platform args) as [x |], (Api.q_language args) as [y |],
      (Api.q_update_type args) as [z |]; cbn [Api.add_filter];
      try destruct (truthy x) eqn:Hx; try destruct (truthy y) eqn:Hy;
      try destruct (truthy z) eqn:Hz; cbn [Api.add_filter];
      rewrite ?Hx, ?Hy, ?Hz; reflexivity.
Qed.

Lemma served_rows_pass_the_filters_witness :
  In (video_row 3 1 "telugu") (movie_updates twelve_videos)
  /\ Spec.all_filters_hold youtube_telugu_page_2 (video_row 3 1 "telugu") = true.
Proof.
  apply (proj1 (served_rows_pass_the_filters youtube_telugu_page_2
                  twelve_videos)).
  vm_compute; left; reflexivity.
Defined.

(* ------------------------------------------------------------------ *)
(** ** The search accessor *)

Section SearchFacts.

Import Search.









End SearchFacts.




(* ------------------------------------------------------------------ *)
(** ** The accounts table *)

Section AccountFacts.

Import Accounts.

Lemma account_key_insert (a : social_account) (now : Z) (reg : registry)
      (p u : string) :
  key_present p u (insert_or_ignore a now reg)
  = key_present p u reg
    || (String.eqb (platform a) p && String.eqb (username a) u).
Proof.
  unfold insert_or_ignore.
  destruct (key_present (platform a) (username a) reg) eqn:Hk.
  - unfold key_present at 1; cbn [social_accounts]; fold (key_present p u reg).
    destruct (String.eqb (platform a) p && String.eqb (username a) u) eqn:Hs;
      [| rewrite orb_false_r; reflexivity].
    apply andb_true_iff in Hs as [Hp Hu]; apply String.eqb_eq in Hp, Hu.
    subst p u; rewrite Hk; reflexivity.
  - unfold key_present; cbn [social_accounts].
    rewrite existsb_app; cbn [existsb]; rewrite orb_false_r; reflexivity.
Qed.

Lemma account_key_fold (l : list social_account) (now : Z) (reg : registry)
      (p u : string) :
  key_present p u (fold_left (fun reg' a => insert_or_ignore a now reg') l reg)
  = key_present p u reg
    || existsb (fun a => String.eqb (platform a) p && String.eqb (username a) u) l.
Proof.
  revert reg; induction l as [| a l IH]; intro reg; simpl.
  - rewrite orb_false_r; reflexivity.
  - rewrite IH, account_key_insert, orb_assoc; reflexivity.
Qed.

(** Inserts under stored keys leave the rows alone and move the counter
    on, by one each. *)
Lemma fold_insert_present (l : list social_account) (now : Z) (reg : registry) :
  (forall a, In a l -> key_present (platform a) (username a) reg = true) ->
  fold_left (fun reg' a => insert_or_ignore a now reg') l reg
  = {| social_accounts := social_accounts reg;
       social_accounts_seq :=
         (social_accounts_seq reg + Z.of_nat (List.length l))%Z |}.
Proof.
  revert reg; induction l as [| a l IH]; intros reg Hall.
  - cbn [fold_left List.length Z.of_nat]; rewrite Z.add_0_r.
    destruct reg; reflexivity.
  - cbn [fold_left]; unfold insert_or_ignore at 2.
    rewrite (Hall a (or_introl eq_refl)), IH.
    + cbn [social_accounts social_accounts_seq List.length]; f_equal; lia.
    + intros b Hb; unfold key_present; cbn [social_accounts].
      apply Hall; right; exact Hb.
Qed.

Lemma populate_has_defaults (now : Z) (reg : registry) (a : social_account) :
  In a default_accounts ->
  key_present (platform a) (username a) (populate_default_accounts now reg)
  = true.
Proof.
  intro Hin; unfold populate_default_accounts; rewrite account_key_fold.
  apply orb_true_iff; right; apply existsb_exists; exists a; split;
    [exact Hin | rewrite !String.eqb_refl; reflexivity].
Qed.

Lemma filter_filter_length {A} (f g : A -> bool) (l : list A) :
  (List.length (filter f (filter g l)) <= List.length (filter f l))%nat.
Proof.
  induction l as [| x l IH]; simpl; [lia |].
  destruct (g x), (f x) eqn:Hf; simpl; rewrite ?Hf; simpl; lia.
Qed.

Lemma filter_neg_self {A} (f : A -> bool) (l : list A) :
  filter f (filter (fun x => negb (f x)) l) = [].
Proof.
  induction l as [| x l IH]; simpl; [reflexivity |].
  destruct (f x) eqn:Hf; simpl; rewrite ?Hf; exact IH.
Qed.

Lemma NoDup_map_filter {A B} (h : A -> B) (g : A -> bool) (l : list A) :
  NoDup (map h l) -> NoDup (map h (filter g l)).
Proof.
  induction l as [| x l IH]; simpl; intro Hnd; [constructor |].
  inversion Hnd as [| ? ? Hnotin Hrest]; subst.
  destruct (g x); simpl; [constructor | apply IH; exact Hrest].
  - intro Hin; apply Hnotin.
    apply in_map_iff in Hin as [y [Hy Hin]]; apply filter_In in Hin as [Hin _].
    apply in_map_iff; exists y; split; assumption.
  - apply IH; exact Hrest.
Qed.

Lemma append_keeps_well_formed (rows : list account_row) (seq0 : Z)
      (a : social_account) (active : bool) (now : Z) :
  (forall p u, (List.length (filter (has_key p u) rows) <= 1)%nat) ->
  filter (has_key (platform a) (username a)) rows = [] ->
  NoDup (map r_id rows) ->
  Forall (fun r => (r_id r <= seq0)%Z) rows ->
  well_formed
    {| social_accounts := rows ++ [new_account_row (seq0 + 1) a active now];
       social_accounts_seq := seq0 + 1 |}.
Proof.
  intros Hone Hfree Hnd Hle; unfold well_formed; cbn [social_accounts
    social_accounts_seq]; repeat split.
  - intros p u; cbn [social_accounts]; rewrite filter_app; cbn [filter].
    destruct (has_key p u (new_account_row (seq0 + 1) a active now)) eqn:Hs.
    + unfold has_key in Hs; cbn [new_account_row r_platform r_username] in Hs.
      apply andb_true_iff in Hs as [Hp Hu]; apply String.eqb_eq in Hp, Hu.
      subst p u; rewrite Hfree; simpl; lia.
    + rewrite app_nil_r; apply Hone.
  - rewrite map_app; cbn [map r_id new_account_row].
    apply NoDup_app; [exact Hnd | constructor; [intros [] | constructor] |].
    intros x Hx [Heq | []]; subst x.
    apply in_map_iff in Hx as [r [Hr Hin]].
    rewrite Forall_forall in Hle; specialize (Hle r Hin); lia.
  - apply Forall_app; split.
    + eapply Forall_impl; [| exact Hle]; intros r Hr; cbv beta in *; lia.
    + constructor; [cbn; lia | constructor].
Qed.

Lemma insert_keeps_well_formed (a : social_account) (now : Z) (reg : registry) :
  well_formed reg -> well_formed (insert_or_ignore a now reg).
Proof.
  intros (Hone & Hnd & Hle); unfold insert_or_ignore.
  destruct (key_present (platform a) (username a) reg) eqn:Hk.
  - split; [exact Hone |]. split; [exact Hnd |].
    cbn [social_accounts social_accounts_seq].
    eapply Forall_impl; [| exact Hle]; cbv beta; intros r Hr; lia.
  - apply append_keeps_well_formed; try assumption.
    apply filter_nil_existsb; exact Hk.
Qed.

Lemma populate_keeps_well_formed (now : Z) (reg : registry) :
  well_formed reg -> well_formed (populate_default_accounts now reg).
Proof.
  unfold populate_default_accounts; generalize default_accounts as l.
  intro l; revert reg; induction l as [| a l IH]; intros reg Hwf; [exact Hwf |].
  cbn [fold_left]; apply IH, insert_keeps_well_formed; exact Hwf.
Qed.

Lemma add_keeps_well_formed (a : social_account) (now : Z) (reg : registry) :
  well_formed reg -> well_formed (add_account a now reg).
Proof.
  intros (Hone & Hnd & Hle); unfold add_account.
  apply append_keeps_well_formed.
  - intros p u; eapply Nat.le_trans; [apply filter_filter_length | apply Hone].
  - apply filter_neg_self.
  - apply NoDup_map_filter; exact Hnd.
  - rewrite Forall_forall in *; intros r Hr; apply filter_In in Hr as [Hr _].
    apply Hle; exact Hr.
Qed.

Lemma toggle_row_key (i : Z) (r : account_row) (p u : string) :
  has_key p u (toggle_row i r) = has_key p u r.
Proof. unfold toggle_row; destruct (r_id r =? i)%Z; reflexivity. Qed.

Lemma toggle_row_id (i : Z) (r : account_row) : r_id (toggle_row i r) = r_id r.
Proof. unfold toggle_row; destruct (r_id r =? i)%Z; reflexivity. Qed.

Lemma filter_map_length {A} (f : A -> bool) (g : A -> A) (l : list A) :
  (forall x, f (g x) = f x) ->
  List.length (filter f (map g l)) = List.length (filter f l).
Proof.
  intro Hfg; induction l as [| x l IH]; simpl; [reflexivity |].
  rewrite Hfg; destruct (f x); simpl; rewrite IH; reflexivity.
Qed.

Lemma toggle_keeps_well_formed (i : Z) (reg : registry) :
  well_formed reg -> well_formed (toggle_account i reg).
Proof.
  intros (Hone & Hnd & Hle); unfold well_formed, toggle_account;
    cbn [social_accounts social_accounts_seq]; repeat split.
  - intros p u; cbn [social_accounts].
    rewrite filter_map_length by (intro r; apply toggle_row_key); apply Hone.
  - rewrite map_map, (map_ext _ r_id) by (intro r; apply toggle_row_id).
    exact Hnd.
  - rewrite Forall_map; eapply Forall_impl; [| exact Hle].
    intros r Hr; cbv beta; rewrite toggle_row_id; exact Hr.
Qed.

Lemma delete_keeps_well_formed (i : Z) (reg : registry) :
  well_formed reg -> well_formed (delete_account i reg).
Proof.
  intros (Hone & Hnd & Hle); unfold well_formed, delete_account;
    cbn [social_accounts social_accounts_seq]; repeat split.
  - intros p u; cbn [social_accounts].
    eapply Nat.le_trans; [apply filter_filter_length | apply Hone].
  - apply NoDup_map_filter; exact Hnd.
  - rewrite Forall_forall in *; intros r Hr; apply filter_In in Hr as [Hr _].
    apply Hle; exact Hr.
Qed.

Lemma run_keeps_well_formed (ops : list operation) (reg : registry) :
  well_formed reg -> well_formed (run_operations ops reg).
Proof.
  unfold run_operations; revert reg; induction ops as [| op ops IH];
    intros reg Hwf; [exact Hwf |].
  cbn [fold_left]; apply IH; destruct op; cbn [apply_operation].
  - apply populate_keeps_well_formed; exact Hwf.
  - apply add_keeps_well_formed; exact Hwf.
  - apply toggle_keeps_well_formed; exact Hwf.
  - apply delete_keeps_well_formed; exact Hwf.
Qed.

End AccountFacts.

Section AccountOrder.

Import Accounts.

Lemma compare_on_antisym (cols : list (account_row -> string))
      (a b : account_row) :
  compare_on cols a b = CompOpp (compare_on cols b a).
Proof.
  induction cols as [| col cols IH]; simpl; [reflexivity |].
  rewrite String.compare_antisym.
  destruct (String.compare (col b) (col a)); simpl; [exact IH | | ]; reflexivity.
Qed.

Lemma le_on_total (cols : list (account_row -> string)) (a b : account_row) :
  le_on cols a b = false -> le_on cols b a = true.
Proof.
  unfold le_on; rewrite (compare_on_antisym cols a b).
  destruct (compare_on cols b a); simpl; congruence.
Qed.

Lemma insert_on_perm (cols : list (account_row -> string)) (r : account_row)
      (l : list account_row) :
  Permutation (insert_on cols r l) (r :: l).
Proof.
  induction l as [| x l IH]; simpl; [apply Permutation_refl |].
  destruct (le_on cols r x); [apply Permutation_refl |].
  apply perm_trans with (x :: r :: l);
    [apply perm_skip; exact IH | apply perm_swap].
Qed.

Lemma order_by_perm (cols : list (account_row -> string))
      (l : list account_row) :
  Permutation (order_by cols l) l.
Proof.
  induction l as [| r l IH]; simpl; [constructor |].
  apply perm_trans with (r :: order_by cols l);
    [apply insert_on_perm | apply perm_skip; exact IH].
Qed.

Lemma insert_on_sorted (cols : list (account_row -> string)) (r : account_row)
      (l : list account_row) :
  Sorted (fun a b => le_on cols a b = true) l ->
  Sorted (fun a b => le_on cols a b = true) (insert_on cols r l).
Proof.
  induction l as [| x l IH]; intro Hs; simpl.
  - constructor; constructor.
  - destruct (le_on cols r x) eqn:Hle.
    + constructor; [exact Hs | constructor; exact Hle].
    + inversion Hs as [| ? ? Hl Hhd]; subst.
      constructor; [apply IH; exact Hl |].
      destruct l as [| y l]; simpl.
      * constructor; apply le_on_total; exact Hle.
      * destruct (le_on cols r y); constructor.
        -- apply le_on_total; exact Hle.
        -- inversion Hhd; assumption.
Qed.

Lemma order_by_sorted (cols : list (account_row -> string))
      (l : list account_row) :
  Sorted (fun a b => le_on cols a b = true) (order_by cols l).
Proof.
  induction l as [| r l IH]; simpl;
    [constructor | apply insert_on_sorted; exact IH].
Qed.

Lemma toggle_row_twice (i : Z) (r : account_row) :
  toggle_row i (toggle_row i r) = r.
Proof.
  unfold toggle_row; destruct (r_id r =? i)%Z eqn:Hi; cbn [r_id];
    rewrite Hi; [| reflexivity].
  destruct r; cbn; rewrite negb_involutive; reflexivity.
Qed.

Lemma toggle_row_other (i : Z) (r : account_row) :
  r_id r <> i -> toggle_row i r = r.
Proof.
  intro Hne; unfold toggle_row.
  destruct (r_id r =? i)%Z eqn:Hi; [apply Z.eqb_eq in Hi; contradiction |].
  reflexivity.
Qed.

Lemma toggle_unknown_id (i : Z) (reg : registry) :
  (forall r, In r (social_accounts reg) -> r_id r <> i) ->
  toggle_account i reg = reg.
Proof.
  destruct reg as [rows counter]; unfold toggle_account;
    cbn [social_accounts social_accounts_seq]; intro Hno; f_equal.
  rewrite <- (map_id rows) at 2; apply map_ext_in; intros r Hin.
  apply toggle_row_other, Hno; exact Hin.
Qed.

Lemma empty_registry_well_formed : well_formed empty_registry.
Proof.
  repeat split; [intros p u; simpl; lia | constructor | constructor].
Qed.

End AccountOrder.

(** X19. Seeding the accounts.  After [_populate_default_accounts] every
    account of the default list is in the table, whatever was there
    before; running it again, at any later time, leaves every row as it
    was and only moves the rowid counter on, by the 32 inserts it makes;
    and on an empty table it stores all 32 entries, none dropped as a
    duplicate, all of them active. *)
Theorem seeding_is_idempotent :
  forall (now now' : Z) (reg : Accounts.registry),
    (forall a, In a Accounts.default_accounts ->
               Accounts.key_present (Accounts.platform a) (Accounts.username a)
                 (Accounts.populate_default_accounts now reg) = true)
    /\ Accounts.populate_default_accounts now'
         (Accounts.populate_default_accounts now reg)
       = {| Accounts.social_accounts :=
              Accounts.social_accounts
                (Accounts.populate_default_accounts now reg);
            Accounts.social_accounts_seq :=
              (Accounts.social_accounts_seq
                 (Accounts.populate_default_accounts now reg) + 32)%Z |}
    /\ map (fun r => (Accounts.r_platform r, Accounts.r_username r,
                      Accounts.r_is_active r))
           (Accounts.social_accounts
              (Accounts.populate_default_accounts now Accounts.empty_registry))
       = map (fun a => (Accounts.platform a, Accounts.username a, true))
             Accounts.default_accounts
    /\ Accounts.social_accounts_seq
         (Accounts.populate_default_accounts now Accounts.empty_registry)
       = 32%Z.
Proof.
  intros now now' reg; split; [| split; [| split]].
  - intros a Hin; apply populate_has_defaults; exact Hin.
  - unfold Accounts.populate_default_accounts at 1.
    rewrite fold_insert_present; [reflexivity |].
    intros a Hin; apply populate_has_defaults; exact Hin.
  - reflexivity.
  - reflexivity.
Qed.

(** X20. Keys and rowids of the accounts table stay unique under every
    sequence of seeding, adding, toggling and deleting, and no rowid runs
    ahead of the counter. *)
Theorem accounts_stay_well_formed :
  forall ops : list Accounts.operation,
    Accounts.well_formed (Accounts.run_operations ops Accounts.empty_registry).
Proof.
  intro ops; apply run_keeps_well_formed.
  repeat split; [intros p u; simpl; lia | constructor | constructor].
Qed.

(** X21. [get_active_accounts] for a platform answers the active rows of
    that platform, all of them and each once, each row coming no later
    than the next in the order of (account_type, name); without a
    platform it answers all active rows in the order of (platform,
    account_type, name).  An inactive account is never handed to a
    loop. *)
Theorem active_accounts_of_a_platform :
  forall (p : string) (reg : Accounts.registry),
    truthy p = true ->
    let answer := Accounts.get_active_accounts (Some p) reg in
    Permutation answer
      (filter (fun r => Accounts.r_is_active r
                        && String.eqb (Accounts.r_platform r) p)
              (Accounts.social_accounts reg))
    /\ (forall r, In r answer <->
                  In r (Accounts.social_accounts reg)
                  /\ Accounts.r_is_active r = true
                  /\ Accounts.r_platform r = p)
    /\ Sorted (fun a b =>
                 Accounts.le_on [Accounts.r_account_type; Accounts.r_name] a b
                 = true) answer
    /\ Permutation (Accounts.get_active_accounts None reg)
         (filter Accounts.r_is_active (Accounts.social_accounts reg))
    /\ Sorted (fun a b =>
                 Accounts.le_on [Accounts.r_platform; Accounts.r_account_type;
                                 Accounts.r_name] a b = true)
              (Accounts.get_active_accounts None reg).
Proof.
  intros p reg Hp; cbv zeta; unfold Accounts.get_active_accounts.
  cbn [Db.get truthy]; rewrite Hp.
  split; [apply order_by_perm |]; split; [| split; [apply order_by_sorted |]].
  - intro r; split.
    + intro Hin; apply (Permutation_in _ (order_by_perm _ _)) in Hin.
      apply filter_In in Hin as [Hin Hb].
      apply andb_true_iff in Hb as [Ha Hpl]; apply String.eqb_eq in Hpl.
      repeat split; assumption.
    + intros (Hin & Ha & Hpl).
      apply (Permutation_in _ (Permutation_sym (order_by_perm _ _))).
      apply filter_In; split; [exact Hin |].
      rewrite Ha, Hpl, String.eqb_refl; reflexivity.
  - split; [apply order_by_perm | apply order_by_sorted].
Qed.

Lemma active_accounts_of_a_platform_witness :
  Permutation
    (Accounts.get_active_accounts (Some "instagram") Accounts.two_accounts)
    (filter (fun r => Accounts.r_is_active r
                      && String.eqb (Accounts.r_platform r) "instagram")
            (Accounts.social_accounts Accounts.two_accounts)).
Proof.
  exact (proj1 (active_accounts_of_a_platform "instagram"
                  Accounts.two_accounts eq_refl)).
Defined.

(** X22. Toggling.  Toggling an account twice gives the table back as it
    was; toggling an id no row has changes nothing; and toggling touches
    the [is_active] flag of the rows with that id only, no other column
    and no other row. *)
Theorem toggling :
  forall (i : Z) (reg : Accounts.registry),
    Accounts.toggle_account i (Accounts.toggle_account i reg) = reg
    /\ ((forall r, In r (Accounts.social_accounts reg) -> Accounts.r_id r <> i) ->
        Accounts.toggle_account i reg = reg)
    /\ map (fun r => (Accounts.r_id r, Accounts.r_platform r,
                      Accounts.r_username r, Accounts.r_name r,
                      Accounts.r_account_type r, Accounts.r_language r))
           (Accounts.social_accounts (Accounts.toggle_account i reg))
       = map (fun r => (Accounts.r_id r, Accounts.r_platform r,
                        Accounts.r_username r, Accounts.r_name r,
                        Accounts.r_account_type r, Accounts.r_language r))
             (Accounts.social_accounts reg)
    /\ (forall r, In r (Accounts.social_accounts reg) ->
                  Accounts.r_id r <> i ->
                  In r (Accounts.social_accounts (Accounts.toggle_account i reg))).
Proof.
  intros i reg; destruct reg as [rows counter]; unfold Accounts.toggle_account;
    cbn [Accounts.social_accounts Accounts.social_accounts_seq].
  split; [| split; [| split]].
  - f_equal; rewrite map_map.
    rewrite <- (map_id rows) at 2; apply map_ext; intro r.
    apply toggle_row_twice.
  - intro Hno; f_equal.
    rewrite <- (map_id rows) at 2; apply map_ext_in; intros r Hin.
    apply toggle_row_other, Hno; exact Hin.
  - rewrite map_map; apply map_ext; intro r.
    unfold Accounts.toggle_row; destruct (Accounts.r_id r =? i)%Z; reflexivity.
  - intros r Hin Hne; apply in_map_iff; exists r; split;
      [apply toggle_row_other; exact Hne | exact Hin].
Qed.

Lemma toggling_witness :
  Accounts.toggle_account 99 Accounts.two_accounts = Accounts.two_accounts.
Proof.
  apply (proj1 (proj2 (toggling 99 Accounts.two_accounts))).
  intros r Hin; vm_compute in Hin.
  destruct Hin as [<- | [<- | []]]; vm_compute; discriminate.
Defined.

Section AccountReplace.

Import Accounts.

Lemma NoDup_map_inj {A B} (f : A -> B) (l : list A) (x y : A) :
  NoDup (map f l) -> In x l -> In y l -> f x = f y -> x = y.
Proof.
  induction l as [| z l IH]; intros Hnd Hx Hy Hxy; [destruct Hx |].
  simpl in Hnd; inversion Hnd as [| ? ? Hnotin Hrest]; subst.
  destruct Hx as [-> | Hx], Hy as [-> | Hy].
  - reflexivity.
  - exfalso; apply Hnotin; rewrite Hxy; apply in_map; exact Hy.
  - exfalso; apply Hnotin; rewrite <- Hxy; apply in_map; exact Hx.
  - apply IH; assumption.
Qed.

Lemma existsb_filter_neg {A} (f : A -> bool) (l : list A) :
  existsb f (filter (fun x => negb (f x)) l) = false.
Proof.
  induction l as [| x l IH]; simpl; [reflexivity |].
  destruct (f x) eqn:Hf; simpl; rewrite ?Hf; exact IH.
Qed.

Lemma old_id_is_gone (a : social_account) (now : Z) (reg : registry)
      (old : account_row) :
  well_formed reg ->
  In old (social_accounts reg) ->
  has_key (platform a) (username a) old = true ->
  forall r, In r (social_accounts (add_account a now reg)) ->
            r_id r <> r_id old.
Proof.
  intros (_ & Hnd & Hle) Hold Hkey r Hin Heq.
  unfold add_account in Hin; cbn [social_accounts] in Hin.
  rewrite Forall_forall in Hle.
  apply in_app_or in Hin as [Hin | [<- | []]].
  - apply filter_In in Hin as [Hin Hneg].
    assert (r = old) by (apply (NoDup_map_inj r_id _ r old Hnd); assumption).
    subst r; rewrite Hkey in Hneg; discriminate.
  - cbn [new_account_row r_id] in Heq.
    specialize (Hle old Hold); lia.
Qed.

End AccountReplace.

(** X23. Adding an account that is already there replaces it: the table
    then holds, under that (platform, username), the row just given,
    active, with a new rowid; every other account is still there as it
    was; and the rowid the replaced row had refers to nothing any more,
    so toggling it afterwards changes nothing. *)
Theorem adding_replaces :
  forall (a : Accounts.social_account) (now : Z) (reg : Accounts.registry),
    Accounts.well_formed reg ->
    find (Accounts.has_key (Accounts.platform a) (Accounts.username a))
         (Accounts.social_accounts (Accounts.add_account a now reg))
    = Some (Accounts.new_account_row (Accounts.social_accounts_seq reg + 1)
              a true now)
    /\ (forall r, In r (Accounts.social_accounts reg) ->
                  Accounts.has_key (Accounts.platform a) (Accounts.username a) r
                  = false ->
                  In r (Accounts.social_accounts
                          (Accounts.add_account a now reg)))
    /\ (forall old,
          In old (Accounts.social_accounts reg) ->
          Accounts.has_key (Accounts.platform a) (Accounts.username a) old
          = true ->
          ~ In old (Accounts.social_accounts (Accounts.add_account a now reg))
          /\ Accounts.toggle_account (Accounts.r_id old)
               (Accounts.add_account a now reg)
             = Accounts.add_account a now reg).
Proof.
  intros a now reg Hwf; split; [| split].
  - unfold Accounts.add_account; cbn [Accounts.social_accounts].
    rewrite find_app_none by (apply find_none_existsb, existsb_filter_neg).
    cbn [find]; unfold Accounts.has_key;
      cbn [Accounts.new_account_row Accounts.r_platform Accounts.r_username].
    rewrite !String.eqb_refl; reflexivity.
  - intros r Hin Hkey; unfold Accounts.add_account;
      cbn [Accounts.social_accounts].
    apply in_or_app; left; apply filter_In; split; [exact Hin |].
    rewrite Hkey; reflexivity.
  - intros old Hold Hkey; split.
    + intro Hin.
      apply (old_id_is_gone a now reg old Hwf Hold Hkey old Hin); reflexivity.
    + apply toggle_unknown_id.
      intros r Hin; apply (old_id_is_gone a now reg old Hwf Hold Hkey r Hin).
Qed.

Lemma adding_replaces_witness :
  find (Accounts.has_key "instagram" "actorprabhas")
       (Accounts.social_accounts
          (Accounts.add_account
             (Accounts.SocialAccount "Prabhas (official)" "instagram"
                "actorprabhas" "actor" "multi" true) 3 Accounts.two_accounts))
  = Some (Accounts.new_account_row 3
            (Accounts.SocialAccount "Prabhas (official)" "instagram"
               "actorprabhas" "actor" "multi" true) true 3).
Proof.
  apply (proj1 (adding_replaces
                  (Accounts.SocialAccount "Prabhas (official)" "instagram"
                     "actorprabhas" "actor" "multi" true) 3
                  Accounts.two_accounts
                  (add_keeps_well_formed _ _ _
                     (add_keeps_well_formed _ _ _ empty_registry_well_formed)))).
Defined.

(* ------------------------------------------------------------------ *)
(** ** The statistics accessor *)

Section StatsFacts.

Import Stats.

Lemma sum_bump (key : string) (groups : list (string * Z)) :
  sum_counts (bump key groups) = (sum_counts groups + 1)%Z.
Proof.
  induction groups as [| [k n] groups IH]; simpl; [reflexivity |].
  destruct (String.eqb k key); simpl; [lia | rewrite IH; lia].
Qed.

Lemma sum_group (col : row -> string) (rows : list row)
      (groups : list (string * Z)) :
  sum_counts (fold_left (fun g r => bump (col r) g) rows groups)
  = (sum_counts groups + Z.of_nat (List.length rows))%Z.
Proof.
  revert groups; induction rows as [| r rows IH]; intro groups;
    [simpl; lia |].
  cbn [fold_left List.length]; rewrite IH, sum_bump; lia.
Qed.

Lemma count_of_bump (key key' : string) (groups : list (string * Z)) :
  count_of key (bump key' groups)
  = (count_of key groups + if String.eqb key' key then 1 else 0)%Z.
Proof.
  unfold count_of; induction groups as [| [k n] groups IH].
  - simpl; destruct (String.eqb key' key); reflexivity.
  - cbn [bump]; destruct (String.eqb k key') eqn:Hkk'.
    + apply String.eqb_eq in Hkk'; subst key'; cbn [find fst snd].
      destruct (String.eqb k key); [reflexivity | lia].
    + cbn [find fst snd]; destruct (String.eqb k key) eqn:Hk; [| exact IH].
      apply String.eqb_eq in Hk; subst k.
      rewrite String.eqb_sym, Hkk'; cbn [snd]; lia.
Qed.

Lemma count_of_group (col : row -> string) (key : string) (rows : list row)
      (groups : list (string * Z)) :
  count_of key (fold_left (fun g r => bump (col r) g) rows groups)
  = (count_of key groups
     + count_where (fun r => String.eqb (col r) key) rows)%Z.
Proof.
  unfold count_where; revert groups; induction rows as [| r rows IH];
    intro groups; [simpl; lia |].
  cbn [fold_left filter]; rewrite IH, count_of_bump.
  destruct (String.eqb (col r) key); cbn [List.length]; lia.
Qed.

Lemma filter_length_impl {A} (f g : A -> bool) (l : list A) :
  (forall x, f x = true -> g x = true) ->
  (List.length (filter f l) <= List.length (filter g l))%nat.
Proof.
  intro Himp; induction l as [| x l IH]; simpl; [lia |].
  destruct (f x) eqn:Hf; [rewrite (Himp x Hf); simpl; lia |].
  destruct (g x); simpl; lia.
Qed.

Lemma filter_length_split {A} (f : A -> bool) (l : list A) :
  (List.length (filter f l) + List.length (filter (fun x => negb (f x)) l)
   = List.length l)%nat.
Proof.
  induction l as [| x l IH]; simpl; [reflexivity |].
  destruct (f x); simpl; lia.
Qed.

End StatsFacts.

(** X24. The figures of [/api/stats] fit together.  Today's count is at
    most the count of the last seven days, which is at most the total;
    the counts per platform add up to the total and the count of a
    platform is the number of its rows; the counts per language add up
    to the total less the rows without a language, for which there is no
    entry. *)
Theorem stats_add_up :
  forall (now : Z) (db : database) (reg : Accounts.registry),
    let s := Stats.get_stats now db reg in
    (0 <= Stats.today_updates s <= Stats.week_updates s)%Z
    /\ (Stats.week_updates s <= Stats.total_updates s)%Z
    /\ Stats.total_updates s = Z.of_nat (List.length (movie_updates db))
    /\ Stats.sum_counts (Stats.by_platform s) = Stats.total_updates s
    /\ (forall p,
          Stats.count_of p (Stats.by_platform s)
          = Stats.count_where (fun r => String.eqb (platform r) p)
                              (movie_updates db))
    /\ Stats.sum_counts (Stats.by_language s)
       = (Stats.total_updates s
          - Stats.count_where (fun r => String.eqb (Db.language r) "")
                              (movie_updates db))%Z
    /\ Stats.count_of "" (Stats.by_language s) = 0%Z.
Proof.
  intros now db reg; cbv zeta; unfold Stats.get_stats.
  cbn [Stats.today_updates Stats.week_updates Stats.total_updates
       Stats.by_platform Stats.by_language].
  unfold Stats.count_where, Stats.group_count.
  assert (Hall : filter (fun _ : row => true) (movie_updates db)
                 = movie_updates db).
  { induction (movie_updates db) as [| x l IH]; simpl; [| rewrite IH];
      reflexivity. }
  rewrite Hall; repeat split.
  - lia.
  - apply Nat2Z.inj_le, filter_length_impl; intros r Hr.
    apply Z.eqb_eq in Hr; apply Z.leb_le; lia.
  - apply Nat2Z.inj_le; rewrite <- Hall at 2.
    apply filter_length_impl; reflexivity.
  - rewrite sum_group; reflexivity.
  - intro p; rewrite count_of_group; reflexivity.
  - rewrite sum_group; cbn [Stats.sum_counts fold_right].
    pose proof (filter_length_split
                  (fun r => String.eqb (Db.language r) "") (movie_updates db)).
    lia.
  - rewrite count_of_group; unfold Stats.count_where, Stats.count_of;
      cbn [find]; rewrite Z.add_0_l.
    rewrite filter_nil_existsb; [reflexivity |].
    apply existsb_filter_neg.
Qed.

(* ------------------------------------------------------------------ *)
(** ** Configuration *)

Section SettingsFacts.

Import Settings.

Lemma check_apis_keeps (l : list (string * option string)) (v : validation) :
  valid (check_apis l v) = valid v
  /\ errors (check_apis l v) = errors v
  /\ api_status (check_apis l v)
     = api_status v ++ map (fun pc => (fst pc, set (snd pc))) l.
Proof.
  revert v; induction l as [| [p c] l IH]; intro v; cbn [check_apis map].
  - rewrite app_nil_r; repeat split.
  - destruct (IH (if negb (set c)
                  then mk_validation (valid v)
                         (warnings v ++ [(title p ++ " API not configured")%string])
                         (errors v) (api_status v ++ [(p, set c)])
                  else mk_validation (valid v) (warnings v) (errors v)
                         (api_status v ++ [(p, set c)])))
      as (Hv & He & Ha).
    cbn [valid warnings errors api_status] in *.
    rewrite Hv, He, Ha; cbn [fst snd].
    destruct (negb (set c)); cbn [valid errors api_status];
      rewrite <- app_assoc; repeat split.
Qed.

Lemma check_intervals_keeps (l : list (string * Z)) (v : validation) :
  valid (check_intervals l v) = valid v && negb (existsb too_low l)
  /\ errors (check_intervals l v)
     = errors v ++ map low_message (filter too_low l)
  /\ api_status (check_intervals l v) = api_status v.
Proof.
  revert v; induction l as [| [p i] l IH]; intro v;
    cbn [check_intervals existsb filter].
  - rewrite andb_true_r, app_nil_r; repeat split.
  - unfold too_low at 1 3; cbn [snd].
    destruct (i <? 5)%Z eqn:Hlow.
    + destruct (IH (mk_validation false (warnings v)
                      (errors v
                       ++ [(title p
                            ++ " interval too low (minimum 5 minutes)")%string])
                      (api_status v))) as (Hv & He & Ha).
      cbn [valid errors api_status] in *; rewrite Hv, He, Ha.
      split; [cbn [orb negb andb]; rewrite andb_false_r; reflexivity |].
      split; [| reflexivity].
      cbn [map]; rewrite <- app_assoc; reflexivity.
    + destruct (i >? 120)%Z.
      * destruct (IH (mk_validation (valid v)
                        (warnings v
                         ++ [(title p ++ " interval very high ("
                              ++ Poller.str_of_Z i ++ " minutes)")%string])
                        (errors v) (api_status v))) as (Hv & He & Ha).
        cbn [valid errors api_status] in *; rewrite Hv, He, Ha.
        cbn [orb]; repeat split.
      * destruct (IH v) as (Hv & He & Ha); rewrite Hv, He, Ha.
        cbn [orb]; repeat split.
Qed.

Lemma set_and_then (a b : option string) : set (and_then a b) = set a && set b.
Proof. unfold and_then; destruct (set a) eqn:Ha; [reflexivity | exact Ha]. Qed.

(** The results of [validate_config] that do not depend on which
    warnings were collected. *)
Lemma validate_config_parts (cls : config) :
  valid (validate_config cls)
  = negb (existsb too_low (intervals_of cls))
    && negb (String.eqb (SECRET_KEY cls) default_secret_key)
  /\ errors (validate_config cls)
     = map low_message (filter too_low (intervals_of cls))
       ++ (if String.eqb (SECRET_KEY cls) default_secret_key
           then ["Using default secret key - must change for production"]
           else [])
  /\ api_status (validate_config cls)
     = [("twitter", set (TWITTER_BEARER_TOKEN cls));
        ("instagram", set (INSTAGRAM_ACCESS_TOKEN cls));
        ("youtube", set (YOUTUBE_API_KEY cls));
        ("telegram", set (TELEGRAM_BOT_TOKEN cls)
                     && set (TELEGRAM_CHANNEL_ID cls))].
Proof.
  unfold validate_config.
  set (apis := [("twitter", TWITTER_BEARER_TOKEN cls);
                ("instagram", INSTAGRAM_ACCESS_TOKEN cls);
                ("youtube", YOUTUBE_API_KEY cls);
                ("telegram", and_then (TELEGRAM_BOT_TOKEN cls)
                                      (TELEGRAM_CHANNEL_ID cls))]).
  fold (intervals_of cls).
  destruct (check_apis_keeps apis (mk_validation true [] [] []))
    as (Hv1 & He1 & Ha1).
  destruct (check_intervals_keeps (intervals_of cls)
              (check_apis apis (mk_validation true [] [] [])))
    as (Hv2 & He2 & Ha2).
  rewrite Hv1 in Hv2; rewrite He1 in He2; rewrite Ha1 in Ha2.
  cbn [valid errors api_status app] in Hv2, He2, Ha2.
  assert (Hapi : map (fun pc => (fst pc, set (snd pc))) apis
                 = [("twitter", set (TWITTER_BEARER_TOKEN cls));
                    ("instagram", set (INSTAGRAM_ACCESS_TOKEN cls));
                    ("youtube", set (YOUTUBE_API_KEY cls));
                    ("telegram", set (TELEGRAM_BOT_TOKEN cls)
                                 && set (TELEGRAM_CHANNEL_ID cls))]).
  { unfold apis; cbn [map fst snd]; rewrite set_and_then; reflexivity. }
  rewrite Hapi in Ha2.
  set (v2 := check_intervals (intervals_of cls)
               (check_apis apis (mk_validation true [] [] []))) in *.
  set (v3 := if String.eqb (ADMIN_PASSWORD cls) "admin123"
             then mk_validation (valid v2)
                    (warnings v2
                     ++ ["Using default admin password - please change for security"])
                    (errors v2) (api_status v2)
             else v2).
  assert (H3 : valid v3 = valid v2 /\ errors v3 = errors v2
               /\ api_status v3 = api_status v2).
  { unfold v3; destruct (String.eqb (ADMIN_PASSWORD cls) "admin123");
      repeat split. }
  destruct H3 as (Hv3 & He3 & Ha3).
  destruct (String.eqb (SECRET_KEY cls) default_secret_key);
    cbn [valid errors api_status]; rewrite ?Hv3, ?He3, ?Ha3, ?He2.
  - split; [rewrite andb_false_r; reflexivity |]; split;
      [reflexivity | exact Ha2].
  - split; [rewrite Hv2, andb_true_r; reflexivity |]; split;
      [rewrite app_nil_r; reflexivity | exact Ha2].
Qed.

Lemma before_first_prefix (sep s : string) :
  exists rest, s = (before_first sep s ++ rest)%string.
Proof.
  induction s as [| c s [rest IH]]; cbn [before_first].
  - destruct (startswith sep ""); exists ""; reflexivity.
  - destruct (startswith sep (String c s)); [exists (String c s); reflexivity |].
    exists rest; simpl; rewrite <- IH; reflexivity.
Qed.

Lemma before_first_none (sep s : string) :
  contains sep s = false -> before_first sep s = s.
Proof.
  induction s as [| c s IH]; cbn [before_first contains]; intro H.
  - destruct (startswith sep ""); [discriminate | reflexivity].
  - apply orb_false_iff in H as [Hs Hc]; rewrite Hs, (IH Hc); reflexivity.
Qed.

Lemma before_first_found (sep pre rest : string) :
  (forall a b, pre = (a ++ b)%string -> startswith sep (b ++ sep ++ rest) = true ->
               b = "") ->
  before_first sep (pre ++ sep ++ rest) = pre.
Proof.
  induction pre as [| c pre IH]; intro Hfirst; cbn [append].
  - assert (Hs : startswith sep (sep ++ rest) = true)
      by (apply startswith_iff; exists rest; reflexivity).
    destruct (sep ++ rest)%string eqn:E; cbn [before_first]; rewrite Hs;
      reflexivity.
  - cbn [before_first].
    destruct (startswith sep (String c (pre ++ sep ++ rest))) eqn:Hs.
    + specialize (Hfirst "" (String c pre) eq_refl Hs); discriminate.
    + f_equal; apply IH; intros a b Hab Hb.
      apply (Hfirst (String c a) b); [rewrite Hab; reflexivity | exact Hb].
Qed.

Lemma no_colon_no_start (b tail : string) :
  contains ":" b = false ->
  startswith "://" (b ++ "://" ++ tail) = true -> b = "".
Proof.
  destruct b as [| c b]; [reflexivity |].
  cbn [contains startswith append]; intros Hno Hs.
  apply orb_false_iff in Hno as [Hc _]; rewrite andb_true_r in Hc.
  apply andb_true_iff in Hs as [Hs _]; rewrite Hs in Hc; discriminate.
Qed.

Lemma contains_suffix_false (w a b : string) :
  contains w (a ++ b) = false -> contains w b = false.
Proof.
  intro H; apply not_true_is_false; intro Hb.
  rewrite (contains_append_r w a b Hb) in H; discriminate.
Qed.

End SettingsFacts.

(** X25. [validate_config] reports a configuration as valid exactly when
    it lists no error, and that is exactly when each of the three
    intervals is at least 5 minutes and the secret key is not the
    built-in one.  Warnings never make a configuration invalid. *)
Theorem config_is_valid_iff :
  forall cls : Settings.config,
    (Settings.valid (Settings.validate_config cls) = true
     <-> Settings.errors (Settings.validate_config cls) = [])
    /\ (Settings.valid (Settings.validate_config cls) = true
        <-> (5 <= Settings.TWITTER_INTERVAL cls)%Z
            /\ (5 <= Settings.INSTAGRAM_INTERVAL cls)%Z
            /\ (5 <= Settings.YOUTUBE_INTERVAL cls)%Z
            /\ Settings.SECRET_KEY cls <> Settings.default_secret_key).
Proof.
  intro cls.
  destruct (validate_config_parts cls) as (Hv & He & _).
  rewrite Hv, He; unfold Settings.intervals_of, Settings.too_low;
    cbn [existsb filter snd].
  destruct (Z.ltb_spec (Settings.TWITTER_INTERVAL cls) 5),
    (Z.ltb_spec (Settings.INSTAGRAM_INTERVAL cls) 5),
    (Z.ltb_spec (Settings.YOUTUBE_INTERVAL cls) 5),
    (String.eqb_spec (Settings.SECRET_KEY cls) Settings.default_secret_key);
    cbn; split; split; intros; try discriminate; try reflexivity;
    try (exfalso; lia); try tauto;
    repeat match goal with H : _ /\ _ |- _ => destruct H end;
    try lia; try contradiction.
Qed.

(** X26. Credentials only warn.  Two configurations that differ in their
    credentials alone are valid or invalid together and list the same
    errors; the status of telegram is on only with both the bot token
    and the channel id set, and a credential set to the empty string
    counts as not set. *)
Theorem credentials_only_warn :
  forall a b : Settings.config,
    Settings.same_but_credentials a b ->
    Settings.valid (Settings.validate_config a)
    = Settings.valid (Settings.validate_config b)
    /\ Settings.errors (Settings.validate_config a)
       = Settings.errors (Settings.validate_config b)
    /\ Settings.api_status (Settings.validate_config a)
       = [("twitter", Settings.set (Settings.TWITTER_BEARER_TOKEN a));
          ("instagram", Settings.set (Settings.INSTAGRAM_ACCESS_TOKEN a));
          ("youtube", Settings.set (Settings.YOUTUBE_API_KEY a));
          ("telegram", Settings.set (Settings.TELEGRAM_BOT_TOKEN a)
                       && Settings.set (Settings.TELEGRAM_CHANNEL_ID a))]
    /\ Settings.set (Some "") = false.
Proof.
  intros a b (Hs & Ht & Hi & Hy & _).
  destruct (validate_config_parts a) as (Hva & Hea & Haa).
  destruct (validate_config_parts b) as (Hvb & Heb & _).
  rewrite Hva, Hvb, Hea, Heb, Haa; unfold Settings.intervals_of.
  rewrite Hs, Ht, Hi, Hy; repeat split.
Qed.

Lemma credentials_only_warn_witness :
  Settings.valid (Settings.validate_config Settings.defaults)
  = Settings.valid (Settings.validate_config
                      (Settings.TestingConfig Settings.defaults)).
Proof.
  apply (credentials_only_warn Settings.defaults
           (Settings.TestingConfig Settings.defaults)).
  repeat split.
Defined.

(** X27. The configuration classes.  [get_config] answers the class of
    the name given: the development, testing and production classes for
    their names, the base class for the name default and for every other
    name.  A name given wins over FLASK_ENV; when none is given the value
    of FLASK_ENV is the name, and default when the variable is not set.
    The development class, with its intervals of 5, 10 and 15 minutes, is
    valid exactly when the secret key was changed; the testing class
    reports all four APIs as configured. *)
Theorem configuration_classes :
  forall (base : Settings.config) (env : option string),
    Settings.get_config base env (Some "development")
    = Settings.DevelopmentConfig base
    /\ Settings.get_config base env (Some "testing")
       = Settings.TestingConfig base
    /\ Settings.get_config base env (Some "production")
       = Settings.ProductionConfig base
    /\ Settings.get_config base env (Some "default") = base
    /\ (forall name,
          name <> "development" -> name <> "testing" ->
          name <> "production" ->
          Settings.get_config base env (Some name) = base)
    /\ (forall name,
          Settings.get_config base (Some name) None
          = Settings.get_config base env (Some name))
    /\ Settings.get_config base None None = base
    /\ Settings.get_config base (Some "development") None
       = Settings.DevelopmentConfig base
    /\ Settings.get_config base (Some "testing") None
       = Settings.TestingConfig base
    /\ Settings.get_config base (Some "production") None
       = Settings.ProductionConfig base
    /\ Settings.valid (Settings.validate_config (Settings.DevelopmentConfig base))
       = negb (String.eqb (Settings.SECRET_KEY base)
                          Settings.default_secret_key)
    /\ map snd (Settings.api_status
                  (Settings.validate_config (Settings.TestingConfig base)))
       = [true; true; true; true].
Proof.
  intros base env.
  split; [reflexivity |]. split; [reflexivity |]. split; [reflexivity |].
  split; [reflexivity |]. split.
  { intros name H1 H2 H3; unfold Settings.get_config.
    apply String.eqb_neq in H1, H2, H3; rewrite H1, H2, H3; reflexivity. }
  split; [intro name; reflexivity |].
  split; [reflexivity |]. split; [reflexivity |]. split; [reflexivity |].
  split; [reflexivity |]. split.
  - destruct (validate_config_parts (Settings.DevelopmentConfig base))
      as (Hv & _ & _).
    rewrite Hv; reflexivity.
  - destruct (validate_config_parts (Settings.TestingConfig base))
      as (_ & _ & Ha).
    rewrite Ha; reflexivity.
Qed.

Lemma configuration_classes_witness :
  Settings.get_config Settings.defaults None (Some "staging")
  = Settings.defaults.
Proof.
  apply (proj1 (proj2 (proj2 (proj2 (proj2
           (configuration_classes Settings.defaults None))))));
    discriminate.
Defined.

(** X28. The database URL shown by [get_runtime_info] is cut at the first
    [://]: of a URL that starts with a scheme free of colons, whatever
    follows [://], only the scheme is shown; a URL without [://] is shown
    in full; and what is shown before the dots is always the start of
    the URL. *)
Theorem shown_database_url_is_cut :
  forall cls : Settings.config,
    (forall scheme rest,
        Settings.DATABASE_URL cls = (scheme ++ "://" ++ rest)%string ->
        contains ":" scheme = false ->
        Settings.shown_database_url cls = (scheme ++ "://...")%string)
    /\ (contains "://" (Settings.DATABASE_URL cls) = false ->
        Settings.shown_database_url cls
        = (Settings.DATABASE_URL cls ++ "://...")%string)
    /\ exists shown rest,
         Settings.shown_database_url cls = (shown ++ "://...")%string
         /\ Settings.DATABASE_URL cls = (shown ++ rest)%string.
Proof.
  intro cls; unfold Settings.shown_database_url; repeat split.
  - intros scheme rest Hurl Hno; rewrite Hurl; f_equal.
    apply before_first_found; intros a b Hab Hs.
    apply (no_colon_no_start b rest); [| exact Hs].
    rewrite Hab in Hno; apply (contains_suffix_false ":" a b Hno).
  - intro Hno; rewrite (before_first_none _ _ Hno); reflexivity.
  - destruct (before_first_prefix "://" (Settings.DATABASE_URL cls))
      as [rest Hrest].
    exists (Settings.before_first "://" (Settings.DATABASE_URL cls)), rest.
    split; [reflexivity | exact Hrest].
Qed.

Lemma shown_database_url_is_cut_witness :
  Settings.shown_database_url Settings.defaults = "sqlite://...".
Proof.
  apply (proj1 (shown_database_url_is_cut Settings.defaults)
           "sqlite" "/movie_updates.db"); reflexivity.
Defined.


